(** * Correspondence and export of displayed point clouds

    A shallow embedding of [visualization/src/common/io.cpp]:
    [pcl::visualization::getCorrespondingPointCloud] and
    [pcl::visualization::savePointData].

    Machine integers are integers of [Z] with their conversions written
    out, IEEE-754 values are [spec_float]s, vectors are lists, and an
    access past the end of a vector is a [Fail].  The collaborators the
    translation unit only calls (the kd-tree, the PCD reader and writer,
    the VTK cleaner, the blob conversions) are the fields of two
    interfaces. *)

From Stdlib Require Import ZArith List Bool String Ascii Lia.
From Stdlib Require Import Sorted Permutation SpecFloat DecimalString.
From Stdlib Require Import DecimalPos DecimalZ.
Import ListNotations.

Local Open Scope string_scope.
Local Open Scope list_scope.
Local Open Scope Z_scope.

(** ** Scalars *)

Module Scalar.

(** [float] is IEEE-754 binary32, [double] is binary64. *)
Definition float : Type := spec_float.
Definition double : Type := spec_float.

Definition float_prec : Z := 24.
Definition float_emax : Z := 128.
Definition double_prec : Z := 53.
Definition double_emax : Z := 1024.

(** [static_cast<float> (d)]: round to nearest, ties to even. *)
Definition static_cast_float (d : double) : float :=
  match d with
  | S754_finite s m e => binary_round float_prec float_emax s m e
  | _ => d
  end.

(** [static_cast<std::uint32_t> (n)] of a 64-bit [vtkIdType]. *)
Definition static_cast_uint32 (n : Z) : Z := n mod 2 ^ 32.

(** [static_cast<int> (n)] of a 64-bit [vtkIdType]. *)
Definition static_cast_int (n : Z) : Z := (n + 2 ^ 31) mod 2 ^ 32 - 2 ^ 31.

(** Product of two [std::uint32_t]. *)
Definition uint32_mul (a b : Z) : Z := (a * b) mod 2 ^ 32.

Definition INT_MAX : Z := 2147483647.

Definition float_zero : float := S754_zero false.
Definition double_zero : double := S754_zero false.

Definition spec_float_eq_dec (a b : spec_float) : {a = b} + {a <> b}.
Proof.
  decide equality; try apply Z.eq_dec; try apply Pos.eq_dec;
    apply Bool.bool_dec.
Defined.

End Scalar.
Export Scalar.

(** ** Outcomes of a run

    [Fail] marks the runs the C++ standard gives no meaning to (an index
    past the end of a vector, a signed overflow) and the runs a
    collaborator stops by raising. *)

Inductive failure : Type :=
| VectorOutOfRange      (* operator[] at an index >= size () *)
| SignedOverflow        (* ++ on an int equal to INT_MAX *)
| SpatialIndexFailure.  (* raised while the spatial index is built *)

Inductive result (A : Type) : Type :=
| Ok (a : A)
| Fail (f : failure).
Arguments Ok {A} a.
Arguments Fail {A} f.

Definition result_bind {A B} (r : result A) (k : A -> result B) : result B :=
  match r with
  | Ok a => k a
  | Fail f => Fail f
  end.

Declare Scope result_scope.
Delimit Scope result_scope with result.
Notation "x <- r ;; k" := (result_bind r (fun x => k))
  (at level 61, r at next level, right associativity) : result_scope.

(** ** The standard-library calls of the translation unit *)

Module Std.

(** [std::sort] on a vector of [int]: the ascending rearrangement. *)
Fixpoint insert (x : Z) (l : list Z) : list Z :=
  match l with
  | [] => [x]
  | y :: l' => if x <=? y then x :: l else y :: insert x l'
  end.

Definition sort (l : list Z) : list Z := fold_right insert [] l.

(** [v.erase (std::unique (v.begin (), v.end ()), v.end ())]: of every
    run of equal neighbours the first element is kept. *)
Fixpoint unique (l : list Z) : list Z :=
  match l with
  | [] => []
  | x :: l' =>
      match l' with
      | [] => [x]
      | y :: _ => if x =? y then unique l' else x :: unique l'
      end
  end.

(** [s.find (pat)]: position of the first occurrence, [None] for
    [std::string::npos]. *)
Definition find (s pat : string) : option nat := String.index 0 pat s.

(** [s.substr (pos, len)]. *)
Definition substr (s : string) (pos len : nat) : string :=
  String.substring pos len s.

(** [std::to_string (int)]. *)
Definition to_string (i : Z) : string := NilZero.string_of_int (Z.to_int i).

(** [v[i] = a] on a vector; [None] when [i] is not below [v.size ()]. *)
Definition assign {A} (v : list A) (i : Z) (a : A) : option (list A) :=
  if (0 <=? i) && (i <? Z.of_nat (List.length v))
  then Some (firstn (Z.to_nat i) v ++ a :: skipn (S (Z.to_nat i)) v)
  else None.

End Std.

(** ** Data model *)

(** [vtkPolyData], read through [GetNumberOfPoints] and [GetPoint]. *)
Record vtkPolyData : Type := {
  GetNumberOfPoints : Z;
  GetPoint : Z -> double * double * double
}.

Record PointXYZ : Type := { x : float; y : float; z : float }.

(** The value of [PointXYZ ()]. *)
Definition PointXYZ_default : PointXYZ :=
  {| x := float_zero; y := float_zero; z := float_zero |}.

Definition PointXYZ_eq_dec (p q : PointXYZ) : {p = q} + {p <> q}.
Proof. decide equality; apply spec_float_eq_dec. Defined.

Record PointCloud : Type := {
  width : Z;
  height : Z;
  is_dense : bool;
  points : list PointXYZ
}.

(** [pcl::Indices]: a vector of [int]. *)
Definition Indices : Type := list Z.

(** [pcl::KdTreeFLANN<pcl::PointXYZ>] as the translation unit uses it.
    [setInputCloud] gives the tree the later queries run on, or stops
    the run.  [nearestKSearch kd p k] gives the return value and what
    the call leaves in its two out-parameters [k_indices] and
    [k_sqr_distances], which it resizes and fills whatever they held. *)
Class KdTreeFLANN : Type := {
  KdTree : Type;
  setInputCloud : PointCloud -> result KdTree;
  nearestKSearch : KdTree -> PointXYZ -> Z -> Z * Indices * list float
}.

(** ** getCorrespondingPointCloud *)

Section GetCorrespondingPointCloud.

Context {kd_impl : KdTreeFLANN}.

(** The point written to [cloud[i]]. *)
Definition narrowed_point (src : vtkPolyData) (i : Z) : PointXYZ :=
  let '(p0, p1, p2) := GetPoint src i in
  {| x := static_cast_float p0;
     y := static_cast_float p1;
     z := static_cast_float p2 |}.

(** [for (vtkIdType i = 0; i < src->GetNumberOfPoints (); i++)], the
    remaining number of iterations being [todo]. *)
Fixpoint copy_points (src : vtkPolyData) (todo : nat) (i : Z)
    (cloud : list PointXYZ) : result (list PointXYZ) :=
  match todo with
  | O => Ok cloud
  | S todo' =>
      match Std.assign cloud i (narrowed_point src i) with
      | None => Fail VectorOutOfRange
      | Some cloud' => copy_points src todo' (i + 1) cloud'
      end
  end.

(** Lines 59 to 70: the displayed geometry as a [PointCloud]. *)
Definition extract_cloud (src : vtkPolyData) : result PointCloud :=
  let cloud_height := 1 in
  let cloud_width := static_cast_uint32 (GetNumberOfPoints src) in
  let cloud_is_dense := false in
  let resized :=
    repeat PointXYZ_default (Z.to_nat (uint32_mul cloud_width cloud_height)) in
  (pts <- copy_points src (Z.to_nat (GetNumberOfPoints src)) 0 resized ;;
   Ok {| width := cloud_width; height := cloud_height;
         is_dense := cloud_is_dense; points := pts |})%result.

(** [for (const auto &point : cloud.points)]. *)
Fixpoint nearest_loop (kdtree : KdTree) (cloud_points : list PointXYZ)
    (nn_indices : Indices) (nn_dists : list float) (indices : Indices)
    : result Indices :=
  match cloud_points with
  | [] => Ok indices
  | point :: rest =>
      let '(_, nn_indices, nn_dists) := nearestKSearch kdtree point 1 in
      match nn_indices with
      | [] => Fail VectorOutOfRange
      | nn0 :: _ => nearest_loop kdtree rest nn_indices nn_dists (indices ++ [nn0])
      end
  end.

(** Lines 73 to 86: one nearest-neighbour query per displayed point,
    then sort and erase the repetitions. *)
Definition resolve (cloud_points : list PointXYZ) (tgt : PointCloud)
    (indices : Indices) : result Indices :=
  (kdtree <- setInputCloud tgt ;;
   indices <- nearest_loop kdtree cloud_points [0] [float_zero] indices ;;
   let indices := Std.sort indices in
   Ok (Std.unique indices))%result.

Definition getCorrespondingPointCloud (src : vtkPolyData) (tgt : PointCloud)
    (indices : Indices) : result Indices :=
  (cloud <- extract_cloud src ;;
   resolve (points cloud) tgt indices)%result.

(** The index the kd-tree answers for one query point, if any. *)
Definition nearest_index (kdtree : KdTree) (point : PointXYZ) : option Z :=
  hd_error (snd (fst (nearestKSearch kdtree point 1))).

End GetCorrespondingPointCloud.

(** ** savePointData *)

(** The settings of the [vtkCleanPolyData] filter. *)
Record vtkCleanPolyData : Type := {
  Tolerance : double;
  ConvertLinesToPoints : bool;
  ConvertPolysToLines : bool;
  ConvertStripsToPolys : bool;
  PointMerging : bool
}.

(** What [savePointData] calls and does not define.  [World] is
    everything the PCD reader and writer can see and change.
    [cleaner_Update c data] is [GetOutput ()] after [Update ()];
    [loadPCDFile] gives the return value and the cloud read;
    [savePCDFile name cloud binary] is the call with the zero origin and
    the identity orientation. *)
Class Collaborators : Type := {
  World : Type;
  PCLPointCloud2 : Type;
  CloudActor : Type;
  cleaner_Update : vtkCleanPolyData -> vtkPolyData -> vtkPolyData;
  loadPCDFile : string -> World -> Z * PCLPointCloud2 * World;
  savePCDFile : string -> PCLPointCloud2 -> bool -> World -> Z * World;
  fromPCLPointCloud2 : PCLPointCloud2 -> PointCloud;
  copyPointCloud : PCLPointCloud2 -> Indices -> PCLPointCloud2
}.

(** [pcl::console] calls: the function, the format and its argument. *)
Inductive console_fn : Type :=
  print_highlight | print_value | print_debug | print_error.

Inductive console_arg : Type :=
| NoArg
| StrArg (s : string)
| IntArg (i : Z).

(** The calls that leave [savePointData], in the order they are made. *)
Inductive event {env : Collaborators} : Type :=
| console (fn : console_fn) (format : string) (arg : console_arg)
| load_call (file_name : string) (ret : Z)
| save_call (out_filename : string) (cloud_out : PCLPointCloud2) (ret : Z).

Section IO.

Context {env : Collaborators}.

(** A computation over the world that records the calls it makes; a
    [Fail] keeps the calls made so far. *)
Definition IO (A : Type) : Type := World -> result A * World * list event.

Definition io_ret {A} (a : A) : IO A := fun w => (Ok a, w, []).

Definition io_bind {A B} (c : IO A) (k : A -> IO B) : IO B :=
  fun w =>
    let '(r, w1, t1) := c w in
    match r with
    | Ok a => let '(r2, w2, t2) := k a w1 in (r2, w2, t1 ++ t2)
    | Fail f => (Fail f, w1, t1)
    end.

Definition io_lift {A} (r : result A) : IO A := fun w => (r, w, []).

Definition emit (e : event) : IO unit := fun w => (Ok tt, w, [e]).

Definition io_load (file_name : string) : IO (Z * PCLPointCloud2) :=
  fun w =>
    let '(ret, cloud, w1) := loadPCDFile file_name w in
    (Ok (ret, cloud), w1, [load_call file_name ret]).

Definition io_save (out_filename : string) (cloud_out : PCLPointCloud2)
    : IO Z :=
  fun w =>
    let '(ret, w1) := savePCDFile out_filename cloud_out true w in
    (Ok ret, w1, [save_call out_filename cloud_out ret]).

End IO.

Declare Scope io_scope.
Delimit Scope io_scope with io.
Notation "x <- c ;; k" := (io_bind c (fun x => k))
  (at level 61, c at next level, right associativity) : io_scope.
Notation "c ;; k" := (io_bind c (fun _ => k))
  (at level 61, right associativity) : io_scope.

Section SavePointData.

Context {kd_impl : KdTreeFLANN} {env : Collaborators}.

Local Open Scope io_scope.

Definition marker : string := ".pcd".

(** [i++] on an [int]: the value read and the value stored. *)
Definition post_increment (i : Z) : result (Z * Z) :=
  if i =? INT_MAX then Fail SignedOverflow else Ok (i, i + 1).

(** [for (const auto &actor : *actors)], the entries still to visit
    given in iteration order. *)
Fixpoint export_loop (output : vtkPolyData) (out_file : string)
    (actors : list (string * CloudActor)) (i : Z) : IO bool :=
  match actors with
  | [] => io_ret true
  | actor :: rest =>
      let file_name := fst actor in
      match Std.find file_name marker with
      | None => export_loop output out_file rest i
      | Some position =>
          let file_name := (Std.substr file_name 0 position ++ ".pcd")%string in
          emit (console print_debug "  Load: %s ... " (StrArg file_name)) ;;
          loaded <- io_load file_name ;;
          let '(ret, cloud) := loaded in
          if ret =? -1 then
            emit (console print_error "[failed]\n" NoArg) ;;
            io_ret false
          else
            emit (console print_debug "[success]\n" NoArg) ;;
            let cloud_xyz := fromPCLPointCloud2 cloud in
            indices <- io_lift (getCorrespondingPointCloud output cloud_xyz []) ;;
            let cloud_out := copyPointCloud cloud indices in
            iv <- io_lift (post_increment i) ;;
            let '(i_read, i_next) := iv in
            let out_filename :=
              (out_file ++ Std.to_string i_read ++ ".pcd")%string in
            emit (console print_debug "  Save: %s ... " (StrArg out_filename)) ;;
            ret <- io_save out_filename cloud_out ;;
            if ret =? -1 then
              emit (console print_error "[failed]\n" NoArg) ;;
              io_ret false
            else
              emit (console print_debug "[success]\n" NoArg) ;;
              export_loop output out_file rest i_next
      end
  end.

(** The filter of lines 94 to 100. *)
Definition cleaner : vtkCleanPolyData :=
  {| Tolerance := double_zero;
     ConvertLinesToPoints := false;
     ConvertPolysToLines := false;
     ConvertStripsToPolys := false;
     PointMerging := true |}.

(** Lines 103 to 108. *)
Definition report_pruned (data output : vtkPolyData) : IO unit :=
  if negb (GetNumberOfPoints output =? GetNumberOfPoints data) then
    let nr_pts_pruned :=
      static_cast_int (GetNumberOfPoints data - GetNumberOfPoints output) in
    emit (console print_highlight "Number of points pruned: " NoArg) ;;
    emit (console print_value "%d\n" (IntArg nr_pts_pruned))
  else io_ret tt.

Definition savePointData (data : vtkPolyData) (out_file : string)
    (actors : list (string * CloudActor)) : IO bool :=
  let output := cleaner_Update cleaner data in
  report_pruned data output ;;
  export_loop output out_file actors 1.

End SavePointData.

(** ** The collaborators as the specification describes them *)

Module SpatialIndex.

Definition fsub : float -> float -> float := SFsub float_prec float_emax.
Definition fadd : float -> float -> float := SFadd float_prec float_emax.
Definition fmul : float -> float -> float := SFmul float_prec float_emax.

(** Modelled from the spec: the squared distance a nearest-neighbour
    query reports (section 4.3); the kd-tree sources are missing. *)
Definition squared_distance (p q : PointXYZ) : float :=
  let dx := fsub (x p) (x q) in
  let dy := fsub (y p) (y q) in
  let dz := fsub (z p) (z q) in
  fadd (fadd (fmul dx dx) (fmul dy dy)) (fmul dz dz).

(** Modelled from the spec: the linear scan section 9 accepts, the
    lowest index winning among equidistant reference points. *)
Fixpoint scan (query : PointXYZ) (best : Z) (best_dist : float) (i : Z)
    (reference : list PointXYZ) : Z * float :=
  match reference with
  | [] => (best, best_dist)
  | p :: rest =>
      let d := squared_distance query p in
      if SFltb d best_dist
      then scan query i d (i + 1) rest
      else scan query best best_dist (i + 1) rest
  end.

(** Modelled from the spec: [nearest (query) -> (index, distance)] of
    section 4.3, for the missing [KdTreeFLANN::nearestKSearch]. *)
Definition nearest (reference : list PointXYZ) (query : PointXYZ)
    : option (Z * float) :=
  match reference with
  | [] => None
  | p :: rest => Some (scan query 0 (squared_distance query p) 1 rest)
  end.

(** Modelled from the spec: construction over a reference cloud, which
    section 7 wants to fail loudly on an empty cloud; stands for the
    missing [KdTreeFLANN::setInputCloud]. *)
Definition build (reference : PointCloud) : result (list PointXYZ) :=
  match points reference with
  | [] => Fail SpatialIndexFailure
  | _ :: _ => Ok (points reference)
  end.

(** Modelled from the spec: the SpatialIndex component behind the
    kd-tree interface, for the missing [pcl/kdtree/kdtree_flann.h]. *)
#[export] Instance linear_scan : KdTreeFLANN := {|
  KdTree := list PointXYZ;
  setInputCloud := build;
  nearestKSearch := fun kd query _ =>
    match nearest kd query with
    | Some (i, d) => (1, [i], [d])
    | None => (0, [], [])
    end
|}.

End SpatialIndex.

Module GeometryDeduplicator.

Definition dsub : double -> double -> double := SFsub double_prec double_emax.
Definition dadd : double -> double -> double := SFadd double_prec double_emax.
Definition dmul : double -> double -> double := SFmul double_prec double_emax.

Definition Point3 : Type := double * double * double.

Definition Point3_eq_dec (p q : Point3) : {p = q} + {p <> q}.
Proof. repeat decide equality; apply spec_float_eq_dec. Defined.

Definition squared_distance (p q : Point3) : double :=
  let '(px, py, pz) := p in
  let '(qx, qy, qz) := q in
  let dx := dsub px qx in
  let dy := dsub py qy in
  let dz := dsub pz qz in
  dadd (dadd (dmul dx dx) (dmul dy dy)) (dmul dz dz).

(** Modelled from the spec: when two points merge (section 4.1); at
    tolerance 0 exactly the coincident ones.  The VTK filter is not
    part of the sources. *)
Definition coincident (tolerance : double) (p q : Point3) : bool :=
  if SFeqb tolerance double_zero
  then if Point3_eq_dec p q then true else false
  else SFleb (squared_distance p q) (dmul tolerance tolerance).

(** Modelled from the spec: the first-seen point of every group of
    merged points survives (section 4.1). *)
Fixpoint merge (tolerance : double) (kept : list Point3)
    (todo : list Point3) : list Point3 :=
  match todo with
  | [] => kept
  | p :: rest =>
      if existsb (coincident tolerance p) kept
      then merge tolerance kept rest
      else merge tolerance (kept ++ [p]) rest
  end.

Definition points_of (g : vtkPolyData) : list Point3 :=
  map (fun i => GetPoint g (Z.of_nat i))
      (seq 0 (Z.to_nat (GetNumberOfPoints g))).

Definition geometry_of (pts : list Point3) : vtkPolyData :=
  {| GetNumberOfPoints := Z.of_nat (List.length pts);
     GetPoint := fun i =>
       nth (Z.to_nat i) pts (double_zero, double_zero, double_zero) |}.

(** Modelled from the spec: the GeometryDeduplicator of section 4.1,
    for the missing [vtkCleanPolyData::Update]. *)
Definition deduplicate (c : vtkCleanPolyData) (g : vtkPolyData)
    : vtkPolyData :=
  if PointMerging c
  then geometry_of (merge (Tolerance c) [] (points_of g))
  else g.

End GeometryDeduplicator.

Module FileIO.

(** Modelled from the spec: what the file I/O collaborator of section
    6 sees, the clouds on disk by path and the paths that cannot be
    written. *)
Record Disk : Type := {
  files : list (string * PointCloud);
  unwritable : list string
}.

Fixpoint lookup (path : string) (fs : list (string * PointCloud))
    : option PointCloud :=
  match fs with
  | [] => None
  | (name, cloud) :: rest =>
      if String.eqb name path then Some cloud else lookup path rest
  end.

Definition empty_cloud : PointCloud :=
  {| width := 0; height := 1; is_dense := true; points := [] |}.

(** Modelled from the spec: [load (path) -> PointCloud | failure]. *)
Definition load (path : string) (d : Disk) : Z * PointCloud * Disk :=
  match lookup path (files d) with
  | Some cloud => (0, cloud, d)
  | None => (-1, empty_cloud, d)
  end.

(** Modelled from the spec: [save (path, PointCloud) -> success |
    failure]. *)
Definition save (path : string) (cloud : PointCloud) (binary : bool)
    (d : Disk) : Z * Disk :=
  if existsb (String.eqb path) (unwritable d) then (-1, d)
  else (0, {| files := (path, cloud) :: files d;
              unwritable := unwritable d |}).

(** Modelled from the spec: the extraction of step 5 of section 4.5,
    the points at the given indices in the order of the indices. *)
Definition copy (cloud : PointCloud) (indices : Indices) : PointCloud :=
  {| width := Z.of_nat (List.length indices);
     height := 1;
     is_dense := is_dense cloud;
     points :=
       map (fun i => nth (Z.to_nat i) (points cloud) PointXYZ_default)
           indices |}.

(** Modelled from the spec: the collaborators of section 6 together,
    for the PCD, VTK and conversion sources that are missing. *)
#[export] Instance collaborators : Collaborators := {|
  World := Disk;
  PCLPointCloud2 := PointCloud;
  CloudActor := unit;
  cleaner_Update := GeometryDeduplicator.deduplicate;
  loadPCDFile := load;
  savePCDFile := save;
  fromPCLPointCloud2 := fun cloud => cloud;
  copyPointCloud := copy
|}.

End FileIO.

(** ** Sample data *)

Module Sample.

(** Binary64 values: 0, 1, 5, 0.01 and 5.01. *)
Definition d0 : double := S754_zero false.
Definition d1 : double := S754_finite false 4503599627370496 (-52).
Definition d5 : double := S754_finite false 5629499534213120 (-50).
Definition d0_01 : double := S754_finite false 5764607523034235 (-59).
Definition d5_01 : double := S754_finite false 5640758533281546 (-50).

Definition f0 : float := static_cast_float d0.
Definition f1 : float := static_cast_float d1.
Definition f5 : float := static_cast_float d5.

Definition pt (a b c : float) : PointXYZ := {| x := a; y := b; z := c |}.

Definition cloud_of (pts : list PointXYZ) : PointCloud :=
  {| width := Z.of_nat (List.length pts); height := 1;
     is_dense := true; points := pts |}.

(** The reference cloud (0,0,0), (1,0,0), (0,1,0), (5,5,5). *)
Definition reference : PointCloud :=
  cloud_of [pt f0 f0 f0; pt f1 f0 f0; pt f0 f1 f0; pt f5 f5 f5].

(** The displayed points (0.01,0,0) and (5,5,5.01). *)
Definition displayed : vtkPolyData :=
  GeometryDeduplicator.geometry_of [(d0_01, d0, d0); (d5, d5, d5_01)].

End Sample.

(** ** Vocabulary of the statements *)

(** Strictly ascending: every element is below all later ones. *)
Definition ascending (l : list Z) : Prop := StronglySorted Z.lt l.

(** The narrowed point [k] places after position [base]. *)
Definition point_at (src : vtkPolyData) (base k : nat) : PointXYZ :=
  narrowed_point src (Z.of_nat (base + k)).

(** The displayed points in order, every coordinate narrowed. *)
Definition displayed_points (src : vtkPolyData) : list PointXYZ :=
  map (fun k => narrowed_point src (Z.of_nat k))
      (seq 0 (Z.to_nat (GetNumberOfPoints src))).

(** The cloud built for [src] has one row, as many columns as [src] has
    points, is not dense, and holds the narrowed points in order. *)
Definition extracted_as_stated (src : vtkPolyData) : Prop :=
  exists cloud,
    extract_cloud src = Ok cloud /\
    height cloud = 1 /\
    width cloud = GetNumberOfPoints src /\
    is_dense cloud = false /\
    Z.of_nat (List.length (points cloud)) = GetNumberOfPoints src /\
    forall i, 0 <= i < GetNumberOfPoints src ->
      nth_error (points cloud) (Z.to_nat i) =
      Some {| x := static_cast_float (fst (fst (GetPoint src i)));
              y := static_cast_float (snd (fst (GetPoint src i)));
              z := static_cast_float (snd (GetPoint src i)) |}.

(** A displayed geometry of 2^32 points, all at the origin. *)
Definition four_gibi_points : vtkPolyData :=
  {| GetNumberOfPoints := 2 ^ 32;
     GetPoint := fun _ => (double_zero, double_zero, double_zero) |}.

(** The indices the kd-tree answers for the points, in query order. *)
Fixpoint answers {kd_impl : KdTreeFLANN} (kdtree : KdTree)
    (cloud_points : list PointXYZ) : result Indices :=
  match cloud_points with
  | [] => Ok []
  | point :: rest =>
      match nearest_index kdtree point with
      | None => Fail VectorOutOfRange
      | Some nn0 =>
          (found <- answers kdtree rest ;; Ok (nn0 :: found))%result
      end
  end.

(** What the caller relies on when the reference cloud is not empty:
    the index is built, and a query for one neighbour answers an index of
    the reference cloud. *)
Class KdTreeContract (kd_impl : KdTreeFLANN) : Prop := {
  built_when_nonempty :
    forall tgt, points tgt <> [] -> exists kdtree, setInputCloud tgt = Ok kdtree;
  answer_in_reference :
    forall tgt kdtree point,
      points tgt <> [] -> setInputCloud tgt = Ok kdtree ->
      exists nn0,
        nearest_index kdtree point = Some nn0 /\
        0 <= nn0 < Z.of_nat (List.length (points tgt))
}.

(** *** Vocabulary for savePointData *)

Section ExportVocabulary.

Context {kd_impl : KdTreeFLANN} {env : Collaborators}.

(** The load path the loop body computes from a display name. *)
Definition load_path (name : string) : option string :=
  match Std.find name marker with
  | Some position => Some (Std.substr name 0 position ++ ".pcd")%string
  | None => None
  end.

(** The load paths of the entries that carry the marker, in iteration
    order. *)
Definition load_paths (actors : list (string * CloudActor)) : list string :=
  flat_map (fun actor =>
              match load_path (fst actor) with
              | Some path => [path]
              | None => []
              end) actors.

(** The name of the output file with sequence number [k]. *)
Definition output_name (out_file : string) (k : Z) : string :=
  (out_file ++ Std.to_string k ++ ".pcd")%string.

(** One pass through the loop body in state-passing form: the entry is
    skipped, or the function returns, or the loop goes on. *)
Inductive iteration : Type :=
| Skip
| Stop (r : result bool) (w : World) (calls : list event)
| Next (i_next : Z) (w : World) (calls : list event).

Definition iteration_of (output : vtkPolyData) (out_file : string)
    (actor : string * CloudActor) (i : Z) (w : World) : iteration :=
  match Std.find (fst actor) marker with
  | None => Skip
  | Some position =>
      let file_name := (Std.substr (fst actor) 0 position ++ ".pcd")%string in
      let '(ret, cloud, w1) := loadPCDFile file_name w in
      let loading :=
        [console print_debug "  Load: %s ... " (StrArg file_name);
         load_call file_name ret] in
      if ret =? -1 then
        Stop (Ok false) w1 (loading ++ [console print_error "[failed]\n" NoArg])
      else
        let loaded := loading ++ [console print_debug "[success]\n" NoArg] in
        match getCorrespondingPointCloud output (fromPCLPointCloud2 cloud) [] with
        | Fail f => Stop (Fail f) w1 loaded
        | Ok indices =>
            if i =? INT_MAX then Stop (Fail SignedOverflow) w1 loaded
            else
              let out_filename := output_name out_file i in
              let cloud_out := copyPointCloud cloud indices in
              let '(sret, w2) := savePCDFile out_filename cloud_out true w1 in
              let saving :=
                loaded ++
                [console print_debug "  Save: %s ... " (StrArg out_filename);
                 save_call out_filename cloud_out sret] in
              if sret =? -1 then
                Stop (Ok false) w2
                     (saving ++ [console print_error "[failed]\n" NoArg])
              else
                Next (i + 1) w2
                     (saving ++ [console print_debug "[success]\n" NoArg])
        end
  end.

End ExportVocabulary.

(** A call to the file reader or writer and the value it returned. *)
Inductive call : Type :=
| Load (path : string) (ret : Z)
| Save (name : string) (ret : Z).

(** The reader and writer calls of a trace, in order. *)
Definition io_calls {env : Collaborators} (tr : list event) : list call :=
  flat_map (fun e =>
              match e with
              | console _ _ _ => []
              | load_call path ret => [Load path ret]
              | save_call name _ ret => [Save name ret]
              end) tr.

Definition call_failed (c : call) : bool :=
  match c with
  | Load _ ret => ret =? -1
  | Save _ ret => ret =? -1
  end.

(** The paths read, whether the read succeeded or not. *)
Definition read_paths (calls : list call) : list string :=
  flat_map (fun c => match c with Load path _ => [path] | Save _ _ => [] end)
           calls.

(** The paths read successfully. *)
Definition loaded_paths (calls : list call) : list string :=
  flat_map (fun c =>
              match c with
              | Load path ret => if ret =? -1 then [] else [path]
              | Save _ _ => []
              end) calls.

(** Every write attempt with the path read last before it. *)
Fixpoint save_attempts (last_read : string) (calls : list call)
    : list (string * string) :=
  match calls with
  | [] => []
  | Load path _ :: rest => save_attempts path rest
  | Save name _ :: rest => (last_read, name) :: save_attempts last_read rest
  end.

(** The names written successfully. *)
Definition written_names (calls : list call) : list string :=
  flat_map (fun c =>
              match c with
              | Save name ret => if ret =? -1 then [] else [name]
              | Load _ _ => []
              end) calls.

(** [n] consecutive sequence numbers from [i] on. *)
Fixpoint numbers (i : Z) (n : nat) : list Z :=
  match n with
  | O => []
  | S n' => i :: numbers (i + 1) n'
  end.

(** [pos] is where [pat] occurs first in [s]. *)
Definition first_occurrence (pat s : string) (pos : nat) : Prop :=
  String.substring pos (String.length pat) s = pat /\
  forall p, (p < pos)%nat -> String.substring p (String.length pat) s <> pat.

(** The export as section 4.5 of the specification orders it, over the
    load paths of the recognised entries still to process and the next
    sequence number: what is read and written, and the overall result. *)
Inductive protocol (out_file : string)
  : Z -> list string -> result bool -> list call -> Prop :=
| protocol_done i :
    protocol out_file i [] (Ok true) []
| protocol_load_failed i path paths :
    protocol out_file i (path :: paths) (Ok false) [Load path (-1)]
| protocol_undefined i path paths ret f :
    ret <> -1 ->
    protocol out_file i (path :: paths) (Fail f) [Load path ret]
| protocol_save_failed i path paths ret :
    ret <> -1 ->
    protocol out_file i (path :: paths) (Ok false)
             [Load path ret; Save (output_name out_file i) (-1)]
| protocol_saved i path paths ret sret r calls :
    ret <> -1 -> sret <> -1 ->
    protocol out_file (i + 1) paths r calls ->
    protocol out_file i (path :: paths) r
             (Load path ret :: Save (output_name out_file i) sret :: calls).

(** What lines 103 to 108 print. *)
Definition pruning_report {env : Collaborators} (data output : vtkPolyData)
    : list event :=
  if negb (GetNumberOfPoints output =? GetNumberOfPoints data) then
    [console print_highlight "Number of points pruned: " NoArg;
     console print_value "%d\n"
       (IntArg (static_cast_int
                  (GetNumberOfPoints data - GetNumberOfPoints output)))]
  else [].

Definition succeeded (c : call) : bool := negb (call_failed c).

(** The console calls of lines 103 to 108. *)
Definition reports_pruning {env : Collaborators} (e : event) : bool :=
  match e with
  | console print_highlight _ _ => true
  | console print_value _ _ => true
  | _ => false
  end.

(** The count of pruned points reaches the console: [savePointData]
    prints the original point count minus the cleaned point count. *)
Definition pruned_count_reported {kd_impl : KdTreeFLANN} {env : Collaborators}
    (data : vtkPolyData) (out_file : string)
    (actors : list (string * CloudActor)) (w : World) : Prop :=
  exists r w' tr,
    savePointData data out_file actors w = (r, w', tr) /\
    In (console print_value "%d\n"
          (IntArg (GetNumberOfPoints data -
                   GetNumberOfPoints (cleaner_Update cleaner data))))
       tr.

Module MoreSamples.

Import Sample.

(** Two displayed points, (0,1,0) and (0.01,1,0), both nearest to
    reference index 2. *)
Definition crowded : vtkPolyData :=
  GeometryDeduplicator.geometry_of [(d0, d1, d0); (d0_01, d1, d0)].

(** A geometry with the origin twice. *)
Definition repeated : vtkPolyData :=
GeometryDeduplicator.geometry_of [(d0, d0, d0); (d1, d0, d0); (d0, d0, d0)].

(** Three sources and one actor that is not a source. *)
Definition registry : list (string * unit) :=
[("a.pcd", tt); ("floor", tt); ("b.pcd-1", tt); ("c.pcd", tt)].

Definition three_sources : list (string * unit) :=
[("a.pcd", tt); ("b.pcd-1", tt); ("c.pcd", tt)].

(** A disk that holds all three sources. *)
Definition full_disk : FileIO.Disk :=
{| FileIO.files :=
     [("a.pcd", reference); ("b.pcd", reference); ("c.pcd", reference)];
   FileIO.unwritable := [] |}.

(** A disk without the second source. *)
Definition disk_without_b : FileIO.Disk :=
{| FileIO.files := [("a.pcd", reference); ("c.pcd", reference)];
   FileIO.unwritable := [] |}.

(** 2^31 + 1 displayed points, all at the origin. *)
Definition many_origins : vtkPolyData :=
{| GetNumberOfPoints := 2 ^ 31 + 1;
   GetPoint := fun _ => (d0, d0, d0) |}.

(** [savePointData] over the collaborators of the specification. *)
Definition run : vtkPolyData -> string -> list (string * unit) ->
                 FileIO.Disk ->
                 result bool * FileIO.Disk * list (@event FileIO.collaborators) :=
@savePointData SpatialIndex.linear_scan FileIO.collaborators.

(** The disk after out1.pcd was written from a.pcd. *)
Definition disk_after_first : FileIO.Disk :=
{| FileIO.files :=
     ("out1.pcd", FileIO.copy reference [0; 3]) :: FileIO.files disk_without_b;
   FileIO.unwritable := [] |}.

End MoreSamples.

(** *** Further sample data *)

(** A spatial index that accepts an empty reference cloud and then
    finds no neighbour. *)
Module LenientIndex.

#[export] Instance lenient_scan : KdTreeFLANN := {|
  KdTree := list PointXYZ;
  setInputCloud := fun reference => Ok (points reference);
  nearestKSearch := fun kd query _ =>
    match SpatialIndex.nearest kd query with
    | Some (i, d) => (1, [i], [d])
    | None => (0, [], [])
    end
|}.

End LenientIndex.

Module ExtraSamples.

Import Sample.

(** The points of [displayed] in the other order. *)
Definition displayed_swapped : vtkPolyData :=
GeometryDeduplicator.geometry_of [(d5, d5, d5_01); (d0_01, d0, d0)].

(** A reference cloud without points. *)
Definition no_reference : PointCloud := cloud_of [].

(** A registry without any source. *)
Definition no_sources : list (string * unit) :=
[("floor", tt); ("axes", tt)].

End ExtraSamples.

(** The number of [print_error] calls in a trace. *)
Definition error_prints {env : Collaborators} (tr : list event) : nat :=
List.length
  (filter (fun e => match e with
                    | console print_error _ _ => true
                    | _ => false
                    end) tr).

(** * Properties *)

(** ** Runs on concrete inputs *)

Section ConcreteRuns.

Import Sample MoreSamples.

Example narrow_five_point_zero_one :
  static_cast_float d5_01 = S754_finite false 10506732 (-21).
Proof. reflexivity. Qed.

Example width_wraps : static_cast_uint32 (2 ^ 32 + 5) = 5.
Proof. reflexivity. Qed.

Example count_wraps : static_cast_int (2 ^ 31) = - 2 ^ 31.
Proof. reflexivity. Qed.

Example sort_then_unique : Std.unique (Std.sort [3; 1; 3; 2; 1]) = [1; 2; 3].
Proof. reflexivity. Qed.

Example marker_found : Std.find "scan.pcd-2" marker = Some 4%nat.
Proof. reflexivity. Qed.

Example path_recovered : load_path "scan.pcd-2" = Some "scan.pcd".
Proof. reflexivity. Qed.

Example path_of_first_marker :
  load_path "a.pcd.pcd-1" = Some "a.pcd".
Proof. reflexivity. Qed.

Example no_path_without_marker : load_path "floor" = None.
Proof. reflexivity. Qed.

Example seventh_output : output_name "out" 7 = "out7.pcd".
Proof. reflexivity. Qed.

Example extraction_of_displayed :
  extract_cloud displayed =
  Ok {| width := 2; height := 1; is_dense := false;
        points := [pt (static_cast_float d0_01) f0 f0;
                   pt f5 f5 (static_cast_float d5_01)] |}.
Proof. reflexivity. Qed.

Example export_of_registry :
  fst (fst (run displayed "out" registry full_disk)) = Ok true /\
  io_calls (snd (run displayed "out" registry full_disk)) =
    [Load "a.pcd" 0; Save "out1.pcd" 0;
     Load "b.pcd" 0; Save "out2.pcd" 0;
     Load "c.pcd" 0; Save "out3.pcd" 0].
Proof. split; reflexivity. Qed.

Example export_without_second_source :
  fst (fst (run displayed "out" three_sources disk_without_b)) = Ok false /\
  io_calls (snd (run displayed "out" three_sources disk_without_b)) =
    [Load "a.pcd" 0; Save "out1.pcd" 0; Load "b.pcd" (-1)].
Proof. split; reflexivity. Qed.

Example export_with_pruning :
  snd (run repeated "out" [] full_disk) =
  [console print_highlight "Number of points pruned: " NoArg;
   console print_value "%d\n" (IntArg 1)].
Proof. reflexivity. Qed.

End ConcreteRuns.

(** ** Sorting and erasing repetitions *)

Section SortUnique.

Import Std.

Lemma insert_In (a b : Z) (l : list Z) :
  In a (insert b l) <-> a = b \/ In a l.
Proof.
  induction l as [|c l IH]; simpl.
  - intuition.
  - destruct (b <=? c); simpl; rewrite ?IH; intuition.
Qed.

Lemma insert_length (b : Z) (l : list Z) :
  List.length (insert b l) = S (List.length l).
Proof.
  induction l as [|c l IH]; simpl; [reflexivity|].
  destruct (b <=? c); simpl; congruence.
Qed.

Lemma insert_sorted (b : Z) (l : list Z) :
  StronglySorted Z.le l -> StronglySorted Z.le (insert b l).
Proof.
  induction 1 as [|c l Hs IH Hall]; simpl.
  - repeat constructor.
  - destruct (Z.leb_spec b c) as [Hle|Hlt].
    + constructor; [constructor; assumption|].
      constructor; [assumption|].
      eapply Forall_impl; [|exact Hall]. intros; cbv beta in *; lia.
    + constructor; [assumption|].
      apply Forall_forall. intros d Hd. apply insert_In in Hd.
      destruct Hd as [->|Hd]; [lia|].
      rewrite Forall_forall in Hall. auto.
Qed.

Lemma sort_In (a : Z) (l : list Z) : In a (sort l) <-> In a l.
Proof.
  unfold sort. induction l as [|b l IH]; simpl; [tauto|].
  rewrite insert_In, IH. intuition.
Qed.

Lemma sort_length (l : list Z) : List.length (sort l) = List.length l.
Proof.
  unfold sort. induction l as [|b l IH]; simpl; [reflexivity|].
  rewrite insert_length. congruence.
Qed.

Lemma sort_sorted (l : list Z) : StronglySorted Z.le (sort l).
Proof.
  unfold sort. induction l as [|b l IH]; simpl.
  - constructor.
  - apply insert_sorted, IH.
Qed.

Lemma unique_cons (a b : Z) (l : list Z) :
  unique (a :: b :: l) =
  if a =? b then unique (b :: l) else a :: unique (b :: l).
Proof. reflexivity. Qed.

Lemma unique_In (a : Z) (l : list Z) : In a (unique l) <-> In a l.
Proof.
  induction l as [|b l IH]; [simpl; tauto|].
  destruct l as [|c l]; [simpl; tauto|].
  rewrite unique_cons. destruct (Z.eqb_spec b c) as [->|Hne].
  - rewrite IH. simpl. tauto.
  - simpl In at 1. rewrite IH. simpl. tauto.
Qed.

Lemma unique_length (l : list Z) :
  (List.length (unique l) <= List.length l)%nat.
Proof.
  induction l as [|b l IH]; [simpl; lia|].
  destruct l as [|c l]; [simpl; lia|].
  rewrite unique_cons. destruct (b =? c); simpl in *; lia.
Qed.

Lemma unique_ascending (l : list Z) :
  StronglySorted Z.le l -> ascending (unique l).
Proof.
  unfold ascending.
  induction 1 as [|b l Hs IH Hall]; [constructor|].
  destruct l as [|c l]; [repeat constructor|].
  rewrite unique_cons. destruct (Z.eqb_spec b c) as [->|Hne]; [exact IH|].
  constructor; [exact IH|].
  apply Forall_forall. intros d Hd. apply (proj1 (unique_In _ _)) in Hd.
  inversion Hs as [|? ? _ Hc]; subst.
  rewrite Forall_forall in Hall, Hc.
  pose proof (Hall c (or_introl eq_refl)).
  destruct (in_inv Hd) as [<-|Hd']; [lia|].
  specialize (Hc d Hd'). lia.
Qed.

Lemma ascending_NoDup (l : list Z) : ascending l -> NoDup l.
Proof.
  unfold ascending.
  induction 1 as [|b l Hs IH Hall]; constructor; [|exact IH].
  intro Hin. rewrite Forall_forall in Hall. specialize (Hall b Hin). lia.
Qed.

Lemma sort_unique_ascending (l : list Z) : ascending (unique (sort l)).
Proof. apply unique_ascending, sort_sorted. Qed.

Lemma sort_unique_In (a : Z) (l : list Z) :
  In a (unique (sort l)) <-> In a l.
Proof. rewrite unique_In. apply sort_In. Qed.

Lemma sort_unique_length (l : list Z) :
  (List.length (unique (sort l)) <= List.length l)%nat.
Proof. rewrite <- (sort_length l). apply unique_length. Qed.

(** A strictly ascending list within [0, bound) has at most [bound]
    elements. *)
Lemma ascending_bounded_length (l : list Z) (lo hi : Z) :
  ascending l ->
  Forall (fun a => lo <= a < hi) l ->
  Z.of_nat (List.length l) <= Z.max 0 (hi - lo).
Proof.
  unfold ascending. intros Hs. revert lo.
  induction Hs as [|b l Hs IH Hall]; intros lo Hb; simpl List.length.
  - lia.
  - inversion Hb as [|? ? Hb0 Hbl]; subst.
    assert (Hl : Forall (fun a => b + 1 <= a < hi) l).
    { rewrite Forall_forall in *. intros d Hd.
      specialize (Hall d Hd). specialize (Hbl d Hd). lia. }
    specialize (IH (b + 1) Hl). lia.
Qed.

End SortUnique.

(** ** The displayed geometry as a cloud *)

Section Extraction.

Variable src : vtkPolyData.

Lemma assign_middle {A} (done rest : list A) (old new : A) :
  Std.assign (done ++ old :: rest) (Z.of_nat (List.length done)) new =
  Some (done ++ new :: rest).
Proof.
  unfold Std.assign. rewrite length_app. simpl List.length.
  replace ((0 <=? Z.of_nat (List.length done)) &&
           (Z.of_nat (List.length done) <?
            Z.of_nat (List.length done + S (List.length rest))))
    with true
    by (symmetry; apply andb_true_iff; split;
        [apply Z.leb_le | apply Z.ltb_lt]; lia).
  rewrite Nat2Z.id.
  rewrite firstn_app, firstn_all, Nat.sub_diag. simpl firstn.
  rewrite app_nil_r.
  replace (S (List.length done)) with (List.length done + 1)%nat by lia.
  rewrite skipn_app, skipn_all2 by lia.
  replace (List.length done + 1 - List.length done)%nat with 1%nat by lia.
  reflexivity.
Qed.

Lemma assign_end {A} (done : list A) (new : A) :
  Std.assign done (Z.of_nat (List.length done)) new = None.
Proof.
  unfold Std.assign.
  replace (Z.of_nat (List.length done) <? Z.of_nat (List.length done))
    with false by (symmetry; apply Z.ltb_ge; lia).
  rewrite andb_false_r. reflexivity.
Qed.

Lemma point_at_shift (done : list PointXYZ) (p : PointXYZ) (todo : nat) :
  map (point_at src (List.length (done ++ [p]))) (seq 0 todo) =
  map (point_at src (List.length done)) (seq 1 todo).
Proof.
  rewrite <- seq_shift, map_map. apply map_ext. intros k.
  unfold point_at. rewrite length_app. simpl. f_equal. lia.
Qed.

(** The loop writes the next [todo] slots when they exist. *)
Lemma copy_points_fits (todo : nat) :
  forall done rest,
    (todo <= List.length rest)%nat ->
    copy_points src todo (Z.of_nat (List.length done)) (done ++ rest) =
    Ok (done ++ map (point_at src (List.length done)) (seq 0 todo)
             ++ skipn todo rest).
Proof.
  induction todo as [|todo IH]; intros done rest Hlen.
  - reflexivity.
  - destruct rest as [|old rest]; [simpl in Hlen; lia|].
    simpl copy_points. rewrite assign_middle.
    replace (Z.of_nat (List.length done) + 1)
      with (Z.of_nat (List.length (done ++ [narrowed_point src (Z.of_nat (List.length done))])))
      by (rewrite length_app; simpl; lia).
    replace (done ++ narrowed_point src (Z.of_nat (List.length done)) :: rest)
      with ((done ++ [narrowed_point src (Z.of_nat (List.length done))]) ++ rest)
      by (rewrite <- app_assoc; reflexivity).
    rewrite IH by (simpl in Hlen; lia).
    rewrite point_at_shift, <- app_assoc. simpl.
    unfold point_at at 2. rewrite Nat.add_0_r. reflexivity.
Qed.

(** The loop runs past the end when fewer than [todo] slots exist. *)
Lemma copy_points_overruns (todo : nat) :
  forall done rest,
    (List.length rest < todo)%nat ->
    copy_points src todo (Z.of_nat (List.length done)) (done ++ rest) =
    Fail VectorOutOfRange.
Proof.
  induction todo as [|todo IH]; intros done rest Hlen; [lia|].
  destruct rest as [|old rest]; simpl copy_points.
  - rewrite app_nil_r, assign_end. reflexivity.
  - rewrite assign_middle.
    replace (Z.of_nat (List.length done) + 1)
      with (Z.of_nat (List.length (done ++ [narrowed_point src (Z.of_nat (List.length done))])))
      by (rewrite length_app; simpl; lia).
    replace (done ++ narrowed_point src (Z.of_nat (List.length done)) :: rest)
      with ((done ++ [narrowed_point src (Z.of_nat (List.length done))]) ++ rest)
      by (rewrite <- app_assoc; reflexivity).
    apply IH. simpl in Hlen. lia.
Qed.

Lemma resized_length :
  List.length
    (repeat PointXYZ_default
       (Z.to_nat (uint32_mul (static_cast_uint32 (GetNumberOfPoints src)) 1)))
  = Z.to_nat (GetNumberOfPoints src mod 2 ^ 32).
Proof.
  rewrite repeat_length. unfold uint32_mul, static_cast_uint32.
  rewrite Z.mul_1_r, Z.mod_mod by lia. reflexivity.
Qed.

(** Below 2^32 points the cloud is the list of narrowed points. *)
Lemma extract_cloud_fits :
  0 <= GetNumberOfPoints src < 2 ^ 32 ->
  extract_cloud src =
  Ok {| width := GetNumberOfPoints src; height := 1; is_dense := false;
        points := displayed_points src |}.
Proof.
  intros Hn. unfold extract_cloud.
  pose proof resized_length as Hlen.
  rewrite Z.mod_small in Hlen by lia.
  change (copy_points src (Z.to_nat (GetNumberOfPoints src)) 0 ?l)
    with (copy_points src (Z.to_nat (GetNumberOfPoints src))
            (Z.of_nat (List.length (@nil PointXYZ))) ([] ++ l)).
  rewrite copy_points_fits by lia.
  rewrite skipn_all2 by lia. simpl. rewrite app_nil_r.
  unfold static_cast_uint32. rewrite Z.mod_small by lia. reflexivity.
Qed.

(** From 2^32 points on the copy loop leaves the resized vector. *)
Lemma extract_cloud_overruns :
  2 ^ 32 <= GetNumberOfPoints src ->
  extract_cloud src = Fail VectorOutOfRange.
Proof.
  intros Hn. unfold extract_cloud.
  pose proof resized_length as Hlen.
  pose proof (Z.mod_pos_bound (GetNumberOfPoints src) (2 ^ 32) ltac:(lia)).
  change (copy_points src (Z.to_nat (GetNumberOfPoints src)) 0 ?l)
    with (copy_points src (Z.to_nat (GetNumberOfPoints src))
            (Z.of_nat (List.length (@nil PointXYZ))) ([] ++ l)).
  rewrite copy_points_overruns by lia. reflexivity.
Qed.

Lemma displayed_points_length :
  List.length (displayed_points src) = Z.to_nat (GetNumberOfPoints src).
Proof. unfold displayed_points. rewrite length_map, length_seq. reflexivity. Qed.

Lemma displayed_points_nth (i : Z) :
  0 <= i < GetNumberOfPoints src ->
  nth_error (displayed_points src) (Z.to_nat i) = Some (narrowed_point src i).
Proof.
  intros Hi. unfold displayed_points.
  rewrite nth_error_map, nth_error_seq.
  destruct (Nat.ltb_spec (Z.to_nat i) (Z.to_nat (GetNumberOfPoints src))); [|lia].
  simpl. rewrite Z2Nat.id by lia. reflexivity.
Qed.

End Extraction.

(** ** The nearest-neighbour loop *)

Section Resolution.

Context {kd_impl : KdTreeFLANN}.

Lemma nearest_loop_answers (kdtree : KdTree) (cloud_points : list PointXYZ) :
  forall nn_indices nn_dists indices,
    nearest_loop kdtree cloud_points nn_indices nn_dists indices =
    (found <- answers kdtree cloud_points ;; Ok (indices ++ found))%result.
Proof.
  induction cloud_points as [|point rest IH]; intros nn_indices nn_dists indices.
  - simpl. rewrite app_nil_r. reflexivity.
  - simpl. unfold nearest_index.
    destruct (nearestKSearch kdtree point 1) as [[found_nr nn] dists].
    destruct nn as [|nn0 nn]; simpl; [reflexivity|].
    rewrite IH. destruct (answers kdtree rest) as [found|f]; simpl.
    + rewrite <- app_assoc. reflexivity.
    + reflexivity.
Qed.

Lemma answers_length (kdtree : KdTree) (cloud_points : list PointXYZ) :
  forall found,
    answers kdtree cloud_points = Ok found ->
    List.length found = List.length cloud_points.
Proof.
  induction cloud_points as [|point rest IH]; simpl; intros found H.
  - injection H as <-. reflexivity.
  - destruct (nearest_index kdtree point); [|discriminate].
    destruct (answers kdtree rest) as [found'|]; [|discriminate].
    injection H as <-. simpl. f_equal. apply IH. reflexivity.
Qed.

Lemma answers_covers (kdtree : KdTree) (cloud_points : list PointXYZ) :
  forall found,
    answers kdtree cloud_points = Ok found ->
    forall point, In point cloud_points ->
      exists nn0, nearest_index kdtree point = Some nn0 /\ In nn0 found.
Proof.
  induction cloud_points as [|p rest IH]; simpl; intros found H point Hin.
  - contradiction.
  - destruct (nearest_index kdtree p) as [nn0|] eqn:Hp; [|discriminate].
    destruct (answers kdtree rest) as [found'|]; [|discriminate].
    injection H as <-. destruct Hin as [->|Hin].
    + exists nn0. split; [assumption | left; reflexivity].
    + destruct (IH found' eq_refl point Hin) as (n & Hn & Hf).
      exists n. split; [assumption | right; assumption].
Qed.

Lemma answers_from (kdtree : KdTree) (cloud_points : list PointXYZ) :
  forall found,
    answers kdtree cloud_points = Ok found ->
    forall nn0, In nn0 found ->
      exists point, In point cloud_points /\
                    nearest_index kdtree point = Some nn0.
Proof.
  induction cloud_points as [|p rest IH]; simpl; intros found H nn0 Hin.
  - injection H as <-. contradiction.
  - destruct (nearest_index kdtree p) as [n|] eqn:Hp; [|discriminate].
    destruct (answers kdtree rest) as [found'|]; [|discriminate].
    injection H as <-. destruct Hin as [<-|Hin].
    + exists p. split; [left; reflexivity | assumption].
    + destruct (IH found' eq_refl nn0 Hin) as (q & Hq & Hn).
      exists q. split; [right; assumption | assumption].
Qed.

Lemma answers_total (kdtree : KdTree) (cloud_points : list PointXYZ) :
  (forall point, In point cloud_points ->
     exists nn0, nearest_index kdtree point = Some nn0) ->
  exists found, answers kdtree cloud_points = Ok found.
Proof.
  induction cloud_points as [|p rest IH]; simpl; intros Hall.
  - exists []. reflexivity.
  - destruct (Hall p (or_introl eq_refl)) as (nn0 & ->).
    destruct IH as (found & ->); [intros; apply Hall; right; assumption|].
    exists (nn0 :: found). reflexivity.
Qed.

(** A run that returns went through the three stages. *)
Lemma resolve_inv (cloud_points : list PointXYZ) (tgt : PointCloud)
    (indices out : Indices) :
  resolve cloud_points tgt indices = Ok out ->
  exists kdtree found,
    setInputCloud tgt = Ok kdtree /\
    answers kdtree cloud_points = Ok found /\
    out = Std.unique (Std.sort (indices ++ found)).
Proof.
  unfold resolve. intros H.
  destruct (setInputCloud tgt) as [kdtree|]; [|discriminate].
  simpl in H. rewrite nearest_loop_answers in H.
  destruct (answers kdtree cloud_points) as [found|] eqn:Hfound;
    [|discriminate].
  simpl in H. injection H as <-.
  exists kdtree, found. split; [reflexivity|]. split; [assumption|reflexivity].
Qed.

Lemma resolve_run (cloud_points : list PointXYZ) (tgt : PointCloud)
    (indices : Indices) (kdtree : KdTree) (found : Indices) :
  setInputCloud tgt = Ok kdtree ->
  answers kdtree cloud_points = Ok found ->
  resolve cloud_points tgt indices =
  Ok (Std.unique (Std.sort (indices ++ found))).
Proof.
  intros Hk Hf. unfold resolve. rewrite Hk. simpl.
  rewrite nearest_loop_answers, Hf. reflexivity.
Qed.

Lemma getCorrespondingPointCloud_inv (src : vtkPolyData) (tgt : PointCloud)
    (indices out : Indices) :
  getCorrespondingPointCloud src tgt indices = Ok out ->
  exists cloud,
    extract_cloud src = Ok cloud /\
    resolve (points cloud) tgt indices = Ok out.
Proof.
  unfold getCorrespondingPointCloud. intros H.
  destruct (extract_cloud src) as [cloud|]; [|discriminate].
  exists cloud. split; [reflexivity | exact H].
Qed.

End Resolution.

(** ** The linear-scan spatial index *)

Section LinearScan.

Import SpatialIndex.

Lemma scan_range (query : PointXYZ) (reference : list PointXYZ) :
  forall best best_dist i nn0 d,
    scan query best best_dist i reference = (nn0, d) ->
    nn0 = best \/ i <= nn0 < i + Z.of_nat (List.length reference).
Proof.
  induction reference as [|p rest IH]; simpl scan;
    intros best best_dist i nn0 d H.
  - injection H as <- _. left. reflexivity.
  - simpl List.length.
    destruct (SFltb (squared_distance query p) best_dist);
      apply IH in H; lia.
Qed.

Lemma nearest_range (reference : list PointXYZ) (query : PointXYZ)
    (nn0 : Z) (d : float) :
  nearest reference query = Some (nn0, d) ->
  0 <= nn0 < Z.of_nat (List.length reference).
Proof.
  destruct reference as [|p rest]; simpl; [discriminate|].
  destruct (scan query 0 (squared_distance query p) 1 rest) as [i e] eqn:Hs.
  intros [= -> ->]. apply scan_range in Hs. lia.
Qed.

Lemma nearest_answers (reference : list PointXYZ) (query : PointXYZ) :
  reference <> [] ->
  exists nn0 d, nearest reference query = Some (nn0, d).
Proof.
  destruct reference as [|p rest]; [congruence|]. intros _. simpl.
  destruct (scan query 0 (squared_distance query p) 1 rest) as [i e].
  exists i, e. reflexivity.
Qed.

Lemma build_inv (tgt : PointCloud) (kdtree : list PointXYZ) :
  build tgt = Ok kdtree -> kdtree = points tgt /\ points tgt <> [].
Proof.
  unfold build. destruct (points tgt) as [|p rest]; [discriminate|].
  intros [= <-]. split; [reflexivity | discriminate].
Qed.

Lemma linear_scan_contract : KdTreeContract linear_scan.
Proof.
  split.
  - intros tgt Hne. exists (points tgt). simpl. unfold build.
    destruct (points tgt); [congruence | reflexivity].
  - intros tgt kdtree point Hne Hb. simpl in *.
    apply build_inv in Hb. destruct Hb as [-> _].
    destruct (nearest_answers (points tgt) point Hne) as (nn0 & d & Hn).
    exists nn0. split.
    + unfold nearest_index. simpl. rewrite Hn. reflexivity.
    + eapply nearest_range. exact Hn.
Qed.

End LinearScan.

(** ** getCorrespondingPointCloud *)

Section Correspondence.

Context {kd_impl : KdTreeFLANN}.

(** C1: whatever the displayed geometry, the reference cloud and the
    initial content of the index vector, the indices
    [getCorrespondingPointCloud] produces are strictly ascending and
    free of repetitions; a reference index that is the nearest
    neighbour of two displayed points occurs exactly once. *)
Theorem correspondence_strictly_ascending
    (src : vtkPolyData) (tgt : PointCloud) (indices out : Indices) :
  getCorrespondingPointCloud src tgt indices = Ok out ->
  ascending out /\
  NoDup out /\
  forall cloud kdtree p q nn0,
    extract_cloud src = Ok cloud ->
    setInputCloud tgt = Ok kdtree ->
    In p (points cloud) -> In q (points cloud) ->
    nearest_index kdtree p = Some nn0 ->
    nearest_index kdtree q = Some nn0 ->
    count_occ Z.eq_dec out nn0 = 1%nat.
Proof.
  intros Hrun.
  destruct (getCorrespondingPointCloud_inv _ _ _ _ Hrun) as (cloud & Hc & Hr).
  destruct (resolve_inv _ _ _ _ Hr) as (kdtree & found & Hk & Hf & ->).
  assert (Hasc : ascending (Std.unique (Std.sort (indices ++ found))))
    by apply sort_unique_ascending.
  split; [exact Hasc|]. split; [apply ascending_NoDup, Hasc|].
  intros cloud' kdtree' p q nn0 Hc' Hk' Hp _ Hnp _.
  rewrite Hc in Hc'. injection Hc' as <-.
  rewrite Hk in Hk'. injection Hk' as <-.
  apply NoDup_count_occ'; [apply ascending_NoDup, Hasc|].
  apply sort_unique_In, in_or_app. right.
  destruct (answers_covers _ _ _ Hf p Hp) as (n & Hn & Hin).
  congruence.
Qed.

(** C3: with a kd-tree that keeps its contract, a non-empty displayed
    point sequence and a non-empty reference cloud, the output (started
    from an empty vector) holds the nearest-neighbour index of every
    displayed point and has between 1 and min (displayed points,
    reference points) elements; an empty displayed point sequence gives
    the empty index set. *)
Theorem correspondence_covers_and_bounded
    (contract : KdTreeContract kd_impl)
    (src : vtkPolyData) (tgt : PointCloud) (cloud : PointCloud) :
  extract_cloud src = Ok cloud ->
  points tgt <> [] ->
  (points cloud <> [] ->
   exists kdtree out,
     setInputCloud tgt = Ok kdtree /\
     getCorrespondingPointCloud src tgt [] = Ok out /\
     (forall p, In p (points cloud) ->
        exists nn0, nearest_index kdtree p = Some nn0 /\ In nn0 out) /\
     (1 <= List.length out)%nat /\
     (List.length out <=
      Nat.min (List.length (points cloud)) (List.length (points tgt)))%nat)
  /\
  (points cloud = [] -> getCorrespondingPointCloud src tgt [] = Ok []).
Proof.
  intros Hc Htgt.
  destruct (built_when_nonempty tgt Htgt) as (kdtree & Hk).
  destruct (answers_total kdtree (points cloud)) as (found & Hf).
  { intros p _.
    destruct (answer_in_reference tgt kdtree p Htgt Hk) as (n & Hn & _).
    exists n. exact Hn. }
  assert (Hrun : getCorrespondingPointCloud src tgt [] =
                 Ok (Std.unique (Std.sort found))).
  { unfold getCorrespondingPointCloud. rewrite Hc. simpl.
    rewrite (resolve_run _ _ _ _ _ Hk Hf). reflexivity. }
  split.
  - intros Hne. exists kdtree, (Std.unique (Std.sort found)).
    split; [exact Hk|]. split; [exact Hrun|].
    assert (Hcov : forall p, In p (points cloud) ->
              exists nn0, nearest_index kdtree p = Some nn0 /\
                          In nn0 (Std.unique (Std.sort found))).
    { intros p Hp. destruct (answers_covers _ _ _ Hf p Hp) as (n & Hn & Hin).
      exists n. split; [exact Hn | apply sort_unique_In, Hin]. }
    split; [exact Hcov|]. split.
    + destruct (points cloud) as [|p rest] eqn:Hpts; [congruence|].
      destruct (Hcov p (or_introl eq_refl)) as (n & _ & Hin).
      destruct (Std.unique (Std.sort found)); [contradiction | simpl; lia].
    + apply Nat.min_glb.
      * rewrite <- (answers_length _ _ _ Hf). apply sort_unique_length.
      * pose proof (ascending_bounded_length
                      (Std.unique (Std.sort found)) 0
                      (Z.of_nat (List.length (points tgt)))
                      (sort_unique_ascending found)) as Hb.
        assert (Hall : Forall
                  (fun a => 0 <= a < Z.of_nat (List.length (points tgt)))
                  (Std.unique (Std.sort found))).
        { apply Forall_forall. intros n Hin.
          apply (proj1 (sort_unique_In _ _)) in Hin.
          destruct (answers_from _ _ _ Hf n Hin) as (p & _ & Hp).
          destruct (answer_in_reference tgt kdtree p Htgt Hk)
            as (n' & Hn' & Hr).
          congruence. }
        specialize (Hb Hall). lia.
  - intros Hempty. rewrite Hrun. rewrite Hempty in Hf. simpl in Hf.
    injection Hf as <-. reflexivity.
Qed.

(** The extraction reads the point count and the points below it,
    nothing else of the geometry. *)
Lemma extract_cloud_ext (src src' : vtkPolyData) :
  GetNumberOfPoints src = GetNumberOfPoints src' ->
  (forall i, 0 <= i < GetNumberOfPoints src -> GetPoint src i = GetPoint src' i) ->
  extract_cloud src = extract_cloud src'.
Proof.
  intros Hn Hp.
  destruct (Z.lt_ge_cases (GetNumberOfPoints src) 0) as [Hneg|Hpos].
  - unfold extract_cloud. rewrite <- Hn.
    replace (Z.to_nat (GetNumberOfPoints src)) with 0%nat by lia.
    reflexivity.
  - destruct (Z.lt_ge_cases (GetNumberOfPoints src) (2 ^ 32)) as [Hs|Hl].
    + rewrite !extract_cloud_fits by lia. rewrite <- Hn. do 2 f_equal.
      unfold displayed_points. rewrite <- Hn. apply map_ext_in.
      intros k Hk. apply in_seq in Hk. unfold narrowed_point.
      rewrite Hp by lia. reflexivity.
    + rewrite !extract_cloud_overruns by lia. reflexivity.
Qed.

(** C10: the indices vector is not cleared: the output is the strictly
    ascending, repetition-free union of what the vector held on entry
    and of the indices matched from an empty vector, so an entry the
    clouds alone do not produce changes the result. *)
Theorem correspondence_appends_to_indices
    (src : vtkPolyData) (tgt : PointCloud) (indices out : Indices) :
  getCorrespondingPointCloud src tgt indices = Ok out ->
  ascending out /\
  NoDup out /\
  exists fresh,
    getCorrespondingPointCloud src tgt [] = Ok fresh /\
    (forall i, In i out <-> In i indices \/ In i fresh) /\
    (forall i, In i indices -> ~ In i fresh -> out <> fresh).
Proof.
  intros Hrun.
  destruct (getCorrespondingPointCloud_inv _ _ _ _ Hrun) as (cloud & Hc & Hr).
  destruct (resolve_inv _ _ _ _ Hr) as (kdtree & found & Hk & Hf & ->).
  split; [apply sort_unique_ascending|].
  split; [apply ascending_NoDup, sort_unique_ascending|].
  exists (Std.unique (Std.sort found)).
  assert (Hunion : forall i,
            In i (Std.unique (Std.sort (indices ++ found))) <->
            In i indices \/ In i (Std.unique (Std.sort found))).
  { intros i. rewrite !sort_unique_In, in_app_iff. tauto. }
  split.
  - unfold getCorrespondingPointCloud. rewrite Hc. simpl.
    rewrite (resolve_run _ _ _ _ _ Hk Hf). reflexivity.
  - split; [exact Hunion|].
    intros i Hi Hnot Heq. apply Hnot. rewrite <- Heq.
    apply Hunion. left. exact Hi.
Qed.

End Correspondence.

(** ** Runs on the sample data *)

Section SampleRuns.

Import Sample MoreSamples.

Lemma correspondence_strictly_ascending_witness :
  @getCorrespondingPointCloud SpatialIndex.linear_scan crowded reference []
    = Ok [2] /\
  (ascending [2] /\
   NoDup [2] /\
   forall cloud kdtree p q nn0,
     extract_cloud crowded = Ok cloud ->
     @setInputCloud SpatialIndex.linear_scan reference = Ok kdtree ->
     In p (points cloud) -> In q (points cloud) ->
     @nearest_index SpatialIndex.linear_scan kdtree p = Some nn0 ->
     @nearest_index SpatialIndex.linear_scan kdtree q = Some nn0 ->
     count_occ Z.eq_dec [2] nn0 = 1%nat).
Proof.
  split.
  - vm_compute. reflexivity.
  - apply (@correspondence_strictly_ascending SpatialIndex.linear_scan
             crowded reference [] [2]).
    vm_compute. reflexivity.
Defined.

Lemma correspondence_covers_and_bounded_witness :
  let cloud := {| width := 2; height := 1; is_dense := false;
                  points := displayed_points displayed |} in
  extract_cloud displayed = Ok cloud /\
  points reference <> [] /\
  ((points cloud <> [] ->
    exists kdtree out,
      @setInputCloud SpatialIndex.linear_scan reference = Ok kdtree /\
      @getCorrespondingPointCloud SpatialIndex.linear_scan
        displayed reference [] = Ok out /\
      (forall p, In p (points cloud) ->
         exists nn0,
           @nearest_index SpatialIndex.linear_scan kdtree p = Some nn0 /\
           In nn0 out) /\
      (1 <= List.length out)%nat /\
      (List.length out <=
       Nat.min (List.length (points cloud))
               (List.length (points reference)))%nat)
   /\
   (points cloud = [] ->
    @getCorrespondingPointCloud SpatialIndex.linear_scan
      displayed reference [] = Ok [])).
Proof.
  intros cloud. split; [vm_compute; reflexivity|].
  split; [discriminate|].
  apply (@correspondence_covers_and_bounded SpatialIndex.linear_scan
           linear_scan_contract displayed reference cloud).
  - vm_compute. reflexivity.
  - discriminate.
Defined.

Lemma correspondence_appends_to_indices_witness :
  @getCorrespondingPointCloud SpatialIndex.linear_scan
    displayed reference [7; 3; 7] = Ok [0; 3; 7] /\
  (ascending [0; 3; 7] /\
   NoDup [0; 3; 7] /\
   exists fresh,
     @getCorrespondingPointCloud SpatialIndex.linear_scan
       displayed reference [] = Ok fresh /\
     (forall i, In i [0; 3; 7] <-> In i [7; 3; 7] \/ In i fresh) /\
     (forall i, In i [7; 3; 7] -> ~ In i fresh -> [0; 3; 7] <> fresh)).
Proof.
  split.
  - vm_compute. reflexivity.
  - apply (@correspondence_appends_to_indices SpatialIndex.linear_scan
             displayed reference [7; 3; 7] [0; 3; 7]).
    vm_compute. reflexivity.
Defined.

(** The round trip of the specification: the displayed points
    (0.01,0,0) and (5,5,5.01) match the reference indices 0 and 3. *)
Example round_trip :
  @getCorrespondingPointCloud SpatialIndex.linear_scan displayed reference []
  = Ok [0; 3].
Proof. vm_compute. reflexivity. Qed.

End SampleRuns.

(** ** The extracted cloud *)

(** C7, as amended: for a displayed geometry of n points with
    n below 2^32, the intermediate cloud has height 1, width n, the dense
    flag false, and its n points are the source points in order, every
    double coordinate narrowed to float. *)
Theorem extracted_cloud_shape (src : vtkPolyData) :
  0 <= GetNumberOfPoints src < 2 ^ 32 ->
  extracted_as_stated src.
Proof.
  intros Hn. unfold extracted_as_stated.
  eexists. split; [apply extract_cloud_fits; exact Hn|]. simpl.
  repeat (split; [reflexivity|]).
  split.
  - rewrite displayed_points_length. lia.
  - intros i Hi. rewrite displayed_points_nth by exact Hi.
    unfold narrowed_point. destruct (GetPoint src i) as [[p0 p1] p2].
    reflexivity.
Qed.

Lemma extracted_cloud_shape_witness :
  0 <= GetNumberOfPoints Sample.displayed < 2 ^ 32 /\
  extracted_as_stated Sample.displayed.
Proof.
  split.
  - simpl. lia.
  - apply (extracted_cloud_shape Sample.displayed). simpl. lia.
Defined.

(** C7 as first stated fails at 2^32 displayed points: the width is the
    point count reduced modulo 2^32, and the copy loop leaves the
    resized vector. *)
Lemma extracted_cloud_shape_fails_at_2_32 :
  ~ extracted_as_stated four_gibi_points.
Proof.
  intros (cloud & Hrun & _).
  rewrite extract_cloud_overruns in Hrun by (simpl; lia).
  discriminate.
Qed.

(** ** The spatial index of the specification *)

(** C8: with the spatial index of the specification, an empty
    reference cloud stops [getCorrespondingPointCloud] with the failure
    raised by the construction, never with a result; with a non-empty
    reference cloud every query for one neighbour answers exactly one
    index, that index lies in the reference cloud, and the run returns. *)
Theorem spatial_index_rejects_empty_reference
    (src : vtkPolyData) (tgt : PointCloud) (indices : Indices) :
  (points tgt = [] ->
   SpatialIndex.build tgt = Fail SpatialIndexFailure /\
   (forall out,
      @getCorrespondingPointCloud SpatialIndex.linear_scan src tgt indices
      <> Ok out) /\
   (forall cloud,
      extract_cloud src = Ok cloud ->
      @getCorrespondingPointCloud SpatialIndex.linear_scan src tgt indices
      = Fail SpatialIndexFailure))
  /\
  (points tgt <> [] ->
   (forall query,
      exists nn0 d,
        @nearestKSearch SpatialIndex.linear_scan (points tgt) query 1
        = (1, [nn0], [d]) /\
        0 <= nn0 < Z.of_nat (List.length (points tgt))) /\
   (forall cloud,
      extract_cloud src = Ok cloud ->
      exists out,
        @getCorrespondingPointCloud SpatialIndex.linear_scan src tgt indices
        = Ok out)).
Proof.
  split.
  - intros Hempty.
    assert (Hb : SpatialIndex.build tgt = Fail SpatialIndexFailure)
      by (unfold SpatialIndex.build; rewrite Hempty; reflexivity).
    split; [exact Hb|]. split.
    + intros out Hrun.
      destruct (getCorrespondingPointCloud_inv _ _ _ _ Hrun) as (c & _ & Hr).
      destruct (resolve_inv _ _ _ _ Hr) as (kdtree & _ & Hk & _).
      simpl in Hk. congruence.
    + intros cloud Hc. unfold getCorrespondingPointCloud, resolve.
      rewrite Hc. simpl. rewrite Hb. reflexivity.
  - intros Hne. split.
    + intros query.
      destruct (nearest_answers (points tgt) query Hne) as (nn0 & d & Hn).
      exists nn0, d. simpl. rewrite Hn.
      split; [reflexivity | eapply nearest_range; exact Hn].
    + intros cloud Hc.
      destruct (@built_when_nonempty _ linear_scan_contract tgt Hne)
        as (kdtree & Hk).
      destruct (@answers_total SpatialIndex.linear_scan kdtree (points cloud))
        as (found & Hf).
      { intros p _.
        destruct (@answer_in_reference _ linear_scan_contract
                    tgt kdtree p Hne Hk) as (n & Hn & _).
        exists n. exact Hn. }
      exists (Std.unique (Std.sort (indices ++ found))).
      unfold getCorrespondingPointCloud. rewrite Hc. simpl.
      apply (resolve_run _ _ _ _ _ Hk Hf).
Qed.

(** ** savePointData: the loop over the registry *)

Section ExportLoop.

Context {kd_impl : KdTreeFLANN} {env : Collaborators}.

Variable output : vtkPolyData.
Variable out_file : string.

(** The loop body, unfolded once. *)
Lemma export_loop_cons (actor : string * CloudActor)
    (rest : list (string * CloudActor)) (i : Z) (w : World) :
  export_loop output out_file (actor :: rest) i w =
  match iteration_of output out_file actor i w with
  | Skip => export_loop output out_file rest i w
  | Stop r w' calls => (r, w', calls)
  | Next i' w' calls =>
      let '(r, w'', tr) := export_loop output out_file rest i' w' in
      (r, w'', calls ++ tr)
  end.
Proof.
  unfold iteration_of. simpl export_loop.
  destruct (Std.find (fst actor) marker) as [position|]; [|reflexivity].
  unfold io_bind at 1 2. unfold emit at 1, io_load.
  destruct (loadPCDFile _ w) as [[ret cloud] w1].
  destruct (ret =? -1); [reflexivity|].
  unfold io_bind at 1 2. unfold emit at 1, io_lift at 1.
  destruct (getCorrespondingPointCloud output (fromPCLPointCloud2 cloud) [])
    as [indices|f]; [|reflexivity].
  unfold io_bind at 1. unfold io_lift, post_increment.
  destruct (i =? INT_MAX); [reflexivity|].
  unfold io_bind at 1 2. unfold emit at 1, io_save, output_name.
  destruct (savePCDFile _ _ true w1) as [sret w2].
  destruct (sret =? -1); [reflexivity|].
  unfold io_bind, emit.
  destruct (export_loop output out_file rest (i + 1) w2) as [[r w3] tr].
  reflexivity.
Qed.

(** What one pass reads and writes. *)
Lemma iteration_of_calls (actor : string * CloudActor) (i : Z) (w : World) :
  match iteration_of output out_file actor i w with
  | Skip => load_path (fst actor) = None
  | Stop r w' calls =>
      exists path,
        load_path (fst actor) = Some path /\
        ((r = Ok false /\ io_calls calls = [Load path (-1)]) \/
         (exists ret, ret <> -1 /\
            ((exists f, r = Fail f /\ io_calls calls = [Load path ret]) \/
             (r = Ok false /\
              io_calls calls =
              [Load path ret; Save (output_name out_file i) (-1)]))))
  | Next i' w' calls =>
      exists path ret sret,
        load_path (fst actor) = Some path /\
        ret <> -1 /\ sret <> -1 /\ i' = i + 1 /\
        io_calls calls = [Load path ret; Save (output_name out_file i) sret]
  end.
Proof.
  unfold iteration_of, load_path.
  destruct (Std.find (fst actor) marker) as [position|]; [|reflexivity].
  destruct (loadPCDFile _ w) as [[ret cloud] w1].
  destruct (Z.eqb_spec ret (-1)) as [->|Hret].
  { eexists. split; [reflexivity|]. left. split; reflexivity. }
  destruct (getCorrespondingPointCloud output (fromPCLPointCloud2 cloud) [])
    as [indices|f].
  2:{ eexists. split; [reflexivity|]. right. exists ret.
      split; [exact Hret|]. left. exists f. split; reflexivity. }
  destruct (i =? INT_MAX).
  { eexists. split; [reflexivity|]. right. exists ret.
    split; [exact Hret|]. left. eexists. split; reflexivity. }
  destruct (savePCDFile _ _ true w1) as [sret w2].
  destruct (Z.eqb_spec sret (-1)) as [->|Hsret].
  - eexists. split; [reflexivity|]. right. exists ret.
    split; [exact Hret|]. right. split; reflexivity.
  - exists (Std.substr (fst actor) 0 position ++ ".pcd")%string, ret, sret.
    repeat (split; [first [reflexivity | assumption]|]). reflexivity.
Qed.

Lemma io_calls_app (t1 t2 : list event) :
  io_calls (t1 ++ t2) = io_calls t1 ++ io_calls t2.
Proof. apply flat_map_app. Qed.

(** The loop keeps to the order of section 4.5. *)
Lemma export_loop_protocol (actors : list (string * CloudActor)) :
  forall i w r w' tr,
    export_loop output out_file actors i w = (r, w', tr) ->
    protocol out_file i (load_paths actors) r (io_calls tr).
Proof.
  induction actors as [|actor rest IH]; intros i w r w' tr Hrun.
  - simpl in Hrun. injection Hrun as <- <- <-. constructor.
  - rewrite export_loop_cons in Hrun.
    pose proof (iteration_of_calls actor i w) as Hit.
    simpl load_paths.
    destruct (iteration_of output out_file actor i w) as [|r0 w0 calls|i' w0 calls].
    + rewrite Hit. simpl. eapply IH. exact Hrun.
    + injection Hrun as <- <- <-.
      destruct Hit as (path & -> & [[-> ->] | (ret & Hret & [(f & -> & ->) | [-> ->]])]);
        simpl; constructor; assumption.
    + destruct Hit as (path & ret & sret & -> & Hret & Hsret & -> & Hcalls).
      destruct (export_loop output out_file rest (i + 1) w0)
        as [[r1 w1] tr1] eqn:Hrest.
      injection Hrun as <- <- <-.
      rewrite io_calls_app, Hcalls. simpl.
      constructor; [assumption | assumption | eapply IH; exact Hrest].
Qed.

(** An entry without the marker leaves no mark on the run. *)
Lemma export_loop_skips (before after : list (string * CloudActor))
    (actor : string * CloudActor) :
  load_path (fst actor) = None ->
  forall i w,
    export_loop output out_file (before ++ actor :: after) i w =
    export_loop output out_file (before ++ after) i w.
Proof.
  intros Hskip. induction before as [|first before IH]; intros i w.
  - simpl app. rewrite export_loop_cons.
    pose proof (iteration_of_calls actor i w) as Hit.
    destruct (iteration_of output out_file actor i w).
    + reflexivity.
    + destruct Hit as (path & Hp & _). congruence.
    + destruct Hit as (path & ? & ? & Hp & _). congruence.
  - simpl app. rewrite !export_loop_cons.
    destruct (iteration_of output out_file first i w); [apply IH | reflexivity|].
    rewrite IH. reflexivity.
Qed.

(** Once the loop has stopped short of [true], later entries do not
    matter. *)
Lemma export_loop_stops (before after : list (string * CloudActor)) :
  forall i w r w' tr,
    export_loop output out_file before i w = (r, w', tr) ->
    r <> Ok true ->
    export_loop output out_file (before ++ after) i w = (r, w', tr).
Proof.
  induction before as [|first before IH]; intros i w r w' tr Hrun Hr.
  - simpl in Hrun. injection Hrun as <- <- <-. congruence.
  - simpl app. rewrite export_loop_cons in *.
    destruct (iteration_of output out_file first i w) as [|r0 w0 calls|i' w0 calls].
    + apply IH; assumption.
    + exact Hrun.
    + destruct (export_loop output out_file before i' w0)
        as [[r1 w1] tr1] eqn:Hrest.
      injection Hrun as <- <- <-.
      rewrite (IH _ _ _ _ _ Hrest Hr). reflexivity.
Qed.

(** After a front part that returned [true] the loop goes on with the
    back part. *)
Lemma export_loop_continues
    (front back : list (string * CloudActor)) :
  forall i w w1 tr1,
    export_loop output out_file front i w = (Ok true, w1, tr1) ->
    export_loop output out_file (front ++ back) i w =
    let '(r, w2, tr2) :=
      export_loop output out_file back
        (i + Z.of_nat (List.length (load_paths front))) w1 in
    (r, w2, tr1 ++ tr2).
Proof.
  induction front as [|actor rest IH]; intros i w w1 tr1 Hrun.
  - simpl in Hrun. injection Hrun as <- <-. simpl.
    rewrite Z.add_0_r.
    destruct (export_loop output out_file back i w) as [[r w2] tr2].
    reflexivity.
  - simpl app. rewrite export_loop_cons in *.
    pose proof (iteration_of_calls actor i w) as Hit.
    simpl load_paths.
    destruct (iteration_of output out_file actor i w) as [|r0 w0 calls|i' w0 calls].
    + rewrite Hit. simpl. apply IH. exact Hrun.
    + injection Hrun as -> <- <-.
      destruct Hit as (path & _ & [[H _] | (ret & _ & [(f & H & _) | [H _]])]);
        discriminate.
    + destruct Hit as (path & ret & sret & -> & _ & _ & -> & _).
      destruct (export_loop output out_file rest (i + 1) w0)
        as [[r1 w1'] tr1'] eqn:Hrest.
      injection Hrun as -> <- <-.
      rewrite (IH _ _ _ _ Hrest). simpl List.length.
      replace (i + 1 + Z.of_nat (List.length (load_paths rest)))
        with (i + Z.of_nat (S (List.length (load_paths rest)))) by lia.
      destruct (export_loop output out_file back
                  (i + Z.of_nat (S (List.length (load_paths rest)))) w1')
        as [[r w2] tr2].
      rewrite app_assoc. reflexivity.
Qed.

End ExportLoop.

(** ** Consequences of the order of calls *)

Section Protocol.

Variable out_file : string.

Lemma eqb_minus_one (ret : Z) : ret <> -1 -> (ret =? -1) = false.
Proof. intros H. apply Z.eqb_neq. exact H. Qed.

Ltac settle_returns := rewrite ?eqb_minus_one by assumption.

Ltac by_protocol H :=
  induction H as [i | i path paths | i path paths ret f Hret
                 | i path paths ret Hret
                 | i path paths ret sret r calls Hret Hsret Hrest IH];
  simpl; settle_returns; simpl.

Lemma protocol_written_bound i paths r calls :
  protocol out_file i paths r calls ->
  (List.length (written_names calls) <= List.length paths)%nat /\
  (r <> Ok true ->
   (List.length (written_names calls) < List.length paths)%nat).
Proof.
  intros H. by_protocol H; try (split; [lia | intros; lia]).
  - split; [lia | congruence].
  - destruct IH as [IH1 IH2]. split; [lia|].
    intros Hr. specialize (IH2 Hr). lia.
Qed.

Lemma protocol_true i paths r calls :
  protocol out_file i paths r calls ->
  r = Ok true ->
  loaded_paths calls = paths /\
  written_names calls =
    map (output_name out_file) (numbers i (List.length paths)) /\
  forallb succeeded calls = true.
Proof.
  intros H. by_protocol H; intros Hr; try discriminate.
  - repeat split.
  - destruct (IH Hr) as (IH1 & IH2 & IH3).
    unfold succeeded at 1 2, call_failed. settle_returns. simpl.
    rewrite IH1, IH2. repeat split. exact IH3.
Qed.

Lemma protocol_false i paths r calls :
  protocol out_file i paths r calls ->
  r = Ok false ->
  exists earlier last,
    calls = earlier ++ [last] /\
    call_failed last = true /\
    forallb succeeded earlier = true.
Proof.
  intros H. by_protocol H; intros Hr; try discriminate.
  - exists [], (Load path (-1)). repeat split.
  - exists [Load path ret], (Save (output_name out_file i) (-1)).
    repeat split. unfold forallb, succeeded, call_failed.
    settle_returns. reflexivity.
  - destruct (IH Hr) as (earlier & last & -> & Hlast & Hearlier).
    exists (Load path ret :: Save (output_name out_file i) sret :: earlier), last.
    repeat split; [exact Hlast|]. simpl.
    unfold succeeded at 1 2, call_failed. settle_returns. simpl.
    exact Hearlier.
Qed.

Lemma protocol_not_false i paths r calls :
  protocol out_file i paths r calls ->
  r <> Ok false ->
  forallb succeeded calls = true.
Proof.
  intros H. by_protocol H; intros Hr; try congruence;
    unfold succeeded, call_failed; settle_returns; simpl;
    try reflexivity.
  apply IH. exact Hr.
Qed.

Lemma protocol_read_paths i paths r calls :
  protocol out_file i paths r calls ->
  read_paths calls = firstn (List.length (read_paths calls)) paths.
Proof.
  intros H. by_protocol H; try reflexivity.
  rewrite <- IH. reflexivity.
Qed.

Lemma protocol_true_reads i paths r calls :
  protocol out_file i paths r calls ->
  r = Ok true ->
  read_paths calls = paths.
Proof.
  intros H. by_protocol H; intros Hr; try discriminate; [reflexivity|].
  rewrite (IH Hr). reflexivity.
Qed.



End Protocol.

(** ** The marker in a display name *)

Section Marker.

Lemma find_first_occurrence (name : string) (pos : nat) :
  Std.find name marker = Some pos <-> first_occurrence marker name pos.
Proof.
  unfold Std.find, first_occurrence. split.
  - intros H. split.
    + exact (index_correct1 _ _ _ _ H).
    + intros p Hp. apply (index_correct2 _ _ _ _ H p); [lia | exact Hp].
  - intros [Hat Hbefore].
    destruct (index 0 marker name) as [m|] eqn:Hm.
    + pose proof (index_correct1 _ _ _ _ Hm) as Hm1.
      pose proof (index_correct2 _ _ _ _ Hm) as Hm2.
      destruct (Nat.lt_trichotomy m pos) as [Hlt | [-> | Hgt]].
      * exfalso. exact (Hbefore m Hlt Hm1).
      * reflexivity.
      * exfalso. apply (Hm2 pos); [lia | exact Hgt | exact Hat].
    + exfalso.
      apply (index_correct3 _ pos _ _ Hm); [discriminate | lia | exact Hat].
Qed.

Lemma find_no_occurrence (name : string) :
  Std.find name marker = None <->
  forall pos, String.substring pos (String.length marker) name <> marker.
Proof.
  unfold Std.find. split.
  - intros H pos. apply (index_correct3 _ pos _ _ H); [discriminate | lia].
  - intros Hnone. destruct (index 0 marker name) as [m|] eqn:Hm.
    + exfalso. exact (Hnone m (index_correct1 _ _ _ _ Hm)).
    + reflexivity.
Qed.

End Marker.

(** ** savePointData as a whole *)

Section SavePointDataRuns.

Context {kd_impl : KdTreeFLANN} {env : Collaborators}.

Lemma savePointData_run (data : vtkPolyData) (out_file : string)
    (actors : list (string * CloudActor)) (w : World) :
  savePointData data out_file actors w =
  let '(r, w', tr) :=
    export_loop (cleaner_Update cleaner data) out_file actors 1 w in
  (r, w', pruning_report data (cleaner_Update cleaner data) ++ tr).
Proof.
  unfold savePointData, report_pruned, pruning_report, io_bind.
  destruct (GetNumberOfPoints (cleaner_Update cleaner data) =?
            GetNumberOfPoints data); simpl;
    destruct (export_loop (cleaner_Update cleaner data) out_file actors 1 w)
      as [[r w'] tr]; reflexivity.
Qed.

Lemma pruning_report_no_io (data output : vtkPolyData) :
  io_calls (pruning_report data output) = [].
Proof.
  unfold pruning_report.
  destruct (GetNumberOfPoints output =? GetNumberOfPoints data); reflexivity.
Qed.

(** The calls of a whole run follow the order of section 4.5 from
    sequence number 1. *)
Lemma savePointData_protocol (data : vtkPolyData) (out_file : string)
    (actors : list (string * CloudActor)) (w : World) r w' tr :
  savePointData data out_file actors w = (r, w', tr) ->
  protocol out_file 1 (load_paths actors) r (io_calls tr).
Proof.
  rewrite savePointData_run.
  destruct (export_loop (cleaner_Update cleaner data) out_file actors 1 w)
    as [[r1 w1] tr1] eqn:Hloop.
  intros [= <- <- <-].
  rewrite io_calls_app, pruning_report_no_io. simpl.
  eapply export_loop_protocol. exact Hloop.
Qed.

Lemma iteration_of_quiet (output : vtkPolyData) (out_file : string)
    (actor : string * CloudActor) (i : Z) (w : World) :
  match iteration_of output out_file actor i w with
  | Skip => True
  | Stop _ _ calls => existsb reports_pruning calls = false
  | Next _ _ calls => existsb reports_pruning calls = false
  end.
Proof.
  unfold iteration_of.
  destruct (Std.find (fst actor) marker); [|exact I].
  destruct (loadPCDFile _ w) as [[ret cloud] w1].
  destruct (ret =? -1); [reflexivity|].
  destruct (getCorrespondingPointCloud _ _ _); [|reflexivity].
  destruct (i =? INT_MAX); [reflexivity|].
  destruct (savePCDFile _ _ true w1) as [sret w2].
  destruct (sret =? -1); reflexivity.
Qed.

(** The loop over the registry prints no pruning report. *)
Lemma export_loop_quiet (output : vtkPolyData) (out_file : string)
    (actors : list (string * CloudActor)) :
  forall i w r w' tr,
    export_loop output out_file actors i w = (r, w', tr) ->
    existsb reports_pruning tr = false.
Proof.
  induction actors as [|actor rest IH]; intros i w r w' tr Hrun.
  - simpl in Hrun. injection Hrun as <- <- <-. reflexivity.
  - rewrite export_loop_cons in Hrun.
    pose proof (iteration_of_quiet output out_file actor i w) as Hq.
    destruct (iteration_of output out_file actor i w) as [|r0 w0 calls|i' w0 calls].
    + eapply IH. exact Hrun.
    + injection Hrun as <- <- <-. exact Hq.
    + destruct (export_loop output out_file rest i' w0)
        as [[r1 w1] tr1] eqn:Hrest.
      injection Hrun as <- <- <-.
      rewrite existsb_app, Hq. simpl. eapply IH. exact Hrest.
Qed.

End SavePointDataRuns.

(** ** The deduplicator of the specification *)

Section Deduplicator.

Import GeometryDeduplicator.

Lemma coincident_at_zero (p q : Point3) :
  coincident double_zero p q = true <-> p = q.
Proof.
  unfold coincident. simpl.
  destruct (Point3_eq_dec p q); split; congruence.
Qed.

Lemma merge_NoDup (todo : list Point3) :
  forall kept, NoDup kept -> NoDup (merge double_zero kept todo).
Proof.
  induction todo as [|p rest IH]; intros kept Hkept; simpl; [exact Hkept|].
  destruct (existsb (coincident double_zero p) kept) eqn:Hseen.
  - apply IH. exact Hkept.
  - apply IH. apply NoDup_app.
    + exact Hkept.
    + repeat constructor. intros [].
    + intros q Hq [<-|[]].
      assert (Hex : existsb (coincident double_zero p) kept = true).
      { apply existsb_exists. exists p. split; [exact Hq|].
        apply coincident_at_zero. reflexivity. }
      congruence.
Qed.

Lemma points_of_geometry_of (pts : list Point3) :
  points_of (geometry_of pts) = pts.
Proof.
  unfold points_of, geometry_of. simpl. rewrite Nat2Z.id.
  set (origin := (double_zero, double_zero, double_zero)).
  set (at_index := fun i => nth (Z.to_nat (Z.of_nat i)) pts origin).
  apply nth_ext with (d := at_index 0%nat) (d' := origin).
  - rewrite length_map, length_seq. reflexivity.
  - intros n Hn. rewrite length_map, length_seq in Hn.
    rewrite map_nth, seq_nth by exact Hn.
    unfold at_index. rewrite Nat2Z.id. reflexivity.
Qed.

(** At tolerance 0 no point stays twice. *)
Lemma deduplicate_NoDup (data : vtkPolyData) :
  NoDup (points_of (deduplicate cleaner data)).
Proof.
  unfold deduplicate. simpl.
  rewrite points_of_geometry_of. apply merge_NoDup. constructor.
Qed.

End Deduplicator.

(** ** The export, claim by claim *)

Section ExportClaims.

Context {kd_impl : KdTreeFLANN} {env : Collaborators}.

Lemma iteration_of_load_failed (output : vtkPolyData) (out_file : string)
    (actor : string * CloudActor) (i : Z) (w : World)
    (path : string) (cloud : PCLPointCloud2) (w1 : World) :
  load_path (fst actor) = Some path ->
  loadPCDFile path w = (-1, cloud, w1) ->
  iteration_of output out_file actor i w =
  Stop (Ok false) w1
       [console print_debug "  Load: %s ... " (StrArg path);
        load_call path (-1);
        console print_error "[failed]\n" NoArg].
Proof.
  unfold load_path, iteration_of.
  destruct (Std.find (fst actor) marker) as [position|]; [|discriminate].
  intros [= <-] Hload. rewrite Hload. reflexivity.
Qed.

Lemma iteration_of_saved (output : vtkPolyData) (out_file : string)
    (actor : string * CloudActor) (i : Z) (w : World)
    (path : string) (ret : Z) (cloud : PCLPointCloud2) (w1 : World)
    (indices : Indices) (sret : Z) (w2 : World) :
  load_path (fst actor) = Some path ->
  loadPCDFile path w = (ret, cloud, w1) ->
  ret <> -1 ->
  getCorrespondingPointCloud output (fromPCLPointCloud2 cloud) [] = Ok indices ->
  i <> INT_MAX ->
  savePCDFile (output_name out_file i) (copyPointCloud cloud indices) true w1
    = (sret, w2) ->
  sret <> -1 ->
  iteration_of output out_file actor i w =
  Next (i + 1) w2
       [console print_debug "  Load: %s ... " (StrArg path);
        load_call path ret;
        console print_debug "[success]\n" NoArg;
        console print_debug "  Save: %s ... " (StrArg (output_name out_file i));
        save_call (output_name out_file i) (copyPointCloud cloud indices) sret;
        console print_debug "[success]\n" NoArg].
Proof.
  unfold load_path, iteration_of.
  destruct (Std.find (fst actor) marker) as [position|]; [|discriminate].
  intros [= <-] Hload Hret Hmatch Hi Hsave Hsret.
  rewrite Hload, (eqb_minus_one ret Hret), Hmatch.
  rewrite (proj2 (Z.eqb_neq i INT_MAX) Hi), Hsave, (eqb_minus_one sret Hsret).
  reflexivity.
Qed.

(** C2: [savePointData] returns [true] exactly when every entry that
    carries the marker was loaded and saved without error; no call
    fails unless the result is [false], and a result of [false] comes
    straight after the first failed load or save, which is the last
    call made, entries after it not being processed; of three source
    entries the second of which fails to load, the first one is written
    and the third is neither read nor written. *)
Theorem export_is_fail_fast :
  (forall data out_file actors w r w' tr,
     savePointData data out_file actors w = (r, w', tr) ->
     (r = Ok true <->
      loaded_paths (io_calls tr) = load_paths actors /\
      List.length (written_names (io_calls tr)) = List.length (load_paths actors))
     /\
     (r <> Ok false -> forallb succeeded (io_calls tr) = true)
     /\
     (r = Ok false ->
      (exists earlier last,
         io_calls tr = earlier ++ [last] /\
         call_failed last = true /\
         forallb succeeded earlier = true) /\
      (forall more,
         savePointData data out_file (actors ++ more) w = (Ok false, w', tr))))
  /\
  (forall data out_file first second third w
          path1 path2 ret1 cloud1 w1 indices sret1 w2 cloud2 w3,
     load_path (fst first) = Some path1 ->
     load_path (fst second) = Some path2 ->
     loadPCDFile path1 w = (ret1, cloud1, w1) ->
     ret1 <> -1 ->
     getCorrespondingPointCloud (cleaner_Update cleaner data)
       (fromPCLPointCloud2 cloud1) [] = Ok indices ->
     savePCDFile (output_name out_file 1) (copyPointCloud cloud1 indices)
       true w1 = (sret1, w2) ->
     sret1 <> -1 ->
     loadPCDFile path2 w2 = (-1, cloud2, w3) ->
     exists tr,
       savePointData data out_file [first; second; third] w
         = (Ok false, w3, tr) /\
       io_calls tr =
         [Load path1 ret1; Save (output_name out_file 1) sret1;
          Load path2 (-1)] /\
       written_names (io_calls tr) = [output_name out_file 1]).
Proof.
  split.
  - intros data out_file actors w r w' tr Hrun.
    pose proof (savePointData_protocol _ _ _ _ _ _ _ Hrun) as Hp.
    split; [split|split].
    + intros Hr. destruct (protocol_true _ _ _ _ _ Hp Hr) as (Hl & Hw & _).
      split; [exact Hl|]. rewrite Hw, length_map.
      clear. generalize 1. induction (load_paths actors) as [|p ps IH];
        intros i; simpl; [reflexivity | f_equal; apply IH].
    + intros [_ Hlen].
      destruct (protocol_written_bound _ _ _ _ _ Hp) as [_ Hlt].
      destruct r as [[|]|f]; [reflexivity | |];
        (exfalso; assert (Hless : (List.length (written_names (io_calls tr)) <
                                   List.length (load_paths actors))%nat)
           by (apply Hlt; discriminate); lia).
    + intros Hr. exact (protocol_not_false _ _ _ _ _ Hp Hr).
    + intros Hr. split; [exact (protocol_false _ _ _ _ _ Hp Hr)|].
      intros more. subst r. rewrite savePointData_run in *.
      destruct (export_loop (cleaner_Update cleaner data) out_file actors 1 w)
        as [[r1 w1] tr1] eqn:Hloop.
      injection Hrun as -> <- <-.
      rewrite (export_loop_stops _ _ actors more _ _ _ _ _ Hloop)
        by discriminate.
      reflexivity.
  - intros data out_file first second third w
           path1 path2 ret1 cloud1 w1 indices sret1 w2 cloud2 w3
           Hp1 Hp2 Hl1 Hr1 Hm1 Hs1 Hsr1 Hl2.
    assert (Hi : 1 <> INT_MAX) by (unfold INT_MAX; lia).
    rewrite savePointData_run, export_loop_cons.
    rewrite (iteration_of_saved _ _ _ _ _ _ _ _ _ _ _ _
               Hp1 Hl1 Hr1 Hm1 Hi Hs1 Hsr1).
    rewrite export_loop_cons.
    rewrite (iteration_of_load_failed _ _ _ _ _ _ _ _ Hp2 Hl2).
    eexists. split; [reflexivity|].
    rewrite io_calls_app, pruning_report_no_io. simpl.
    rewrite (eqb_minus_one sret1 Hsr1). split; reflexivity.
Qed.

(** A pass over an entry that carries the marker starts by reading the
    recovered path. *)
Lemma export_loop_loads_head (output : vtkPolyData) (out_file : string)
    (actor : string * CloudActor) (rest : list (string * CloudActor))
    (i : Z) (w : World) (pos : nat) :
  Std.find (fst actor) marker = Some pos ->
  let path := (String.substring 0 pos (fst actor) ++ ".pcd")%string in
  exists r w' tail,
    export_loop output out_file (actor :: rest) i w =
    (r, w',
     console print_debug "  Load: %s ... " (StrArg path)
       :: load_call path (fst (fst (loadPCDFile path w))) :: tail).
Proof.
  intros Hfind path. rewrite export_loop_cons. unfold iteration_of.
  rewrite Hfind. unfold Std.substr. fold path.
  destruct (loadPCDFile path w) as [[ret cloud] w1]. simpl fst.
  destruct (ret =? -1); [eexists _, _, _; reflexivity|].
  destruct (getCorrespondingPointCloud output (fromPCLPointCloud2 cloud) []);
    [|eexists _, _, _; reflexivity].
  destruct (i =? INT_MAX); [eexists _, _, _; reflexivity|].
  destruct (savePCDFile _ _ true w1) as [sret w2].
  destruct (sret =? -1); [eexists _, _, _; reflexivity|].
  destruct (export_loop output out_file rest (i + 1) w2) as [[r w3] tr3].
  eexists _, _, _. reflexivity.
Qed.

(** C5: the position [find] returns is the first occurrence of ".pcd";
    the path loaded for an entry is its display name cut there with
    ".pcd" appended: an entry that carries the marker and is reached
    (the entries before it returned [true]) is read from that path in
    the world they left, the paths read are in iteration order those of
    the entries that carry the marker, all of them when the run returns
    [true]; an entry without the marker is skipped: with or without it
    in the registry the run makes the same calls, numbers its output
    files alike and returns the same. *)
Theorem marker_decides_the_entry :
  (forall name pos,
     Std.find name marker = Some pos <-> first_occurrence marker name pos)
  /\
  (forall name pos,
     first_occurrence marker name pos ->
     load_path name = Some (String.substring 0 pos name ++ ".pcd")%string)
  /\
  (forall name,
     (forall pos, String.substring pos 4 name <> ".pcd"%string) ->
     load_path name = None)
  /\
  (forall data out_file actors w r w' tr,
     savePointData data out_file actors w = (r, w', tr) ->
     read_paths (io_calls tr) =
     firstn (List.length (read_paths (io_calls tr))) (load_paths actors))
  /\
  (forall data out_file before actor after w,
     (forall pos, String.substring pos 4 (fst actor) <> ".pcd"%string) ->
     savePointData data out_file (before ++ actor :: after) w =
     savePointData data out_file (before ++ after) w)
  /\
  (forall data out_file before actor after w w0 tr0 pos,
     first_occurrence marker (fst actor) pos ->
     savePointData data out_file before w = (Ok true, w0, tr0) ->
     let path := (String.substring 0 pos (fst actor) ++ ".pcd")%string in
     exists r w' tail,
       savePointData data out_file (before ++ actor :: after) w =
       (r, w',
        tr0 ++ console print_debug "  Load: %s ... " (StrArg path)
            :: load_call path (fst (fst (loadPCDFile path w0))) :: tail))
  /\
  (forall data out_file actors w w' tr,
     savePointData data out_file actors w = (Ok true, w', tr) ->
     read_paths (io_calls tr) = load_paths actors).
Proof.
  assert (Hnone : forall name,
            (forall pos, String.substring pos 4 name <> ".pcd"%string) ->
            load_path name = None).
  { intros name Hno. unfold load_path.
    rewrite (proj2 (find_no_occurrence name)); [reflexivity | exact Hno]. }
  split; [exact find_first_occurrence|].
  split.
  { intros name pos Hfirst. unfold load_path.
    rewrite (proj2 (find_first_occurrence name pos) Hfirst). reflexivity. }
  split; [exact Hnone|].
  split.
  { intros data out_file actors w r w' tr Hrun.
    eapply protocol_read_paths, savePointData_protocol, Hrun. }
  split.
  - intros data out_file before actor after w Hno.
    rewrite !savePointData_run.
    rewrite (export_loop_skips _ _ before after actor (Hnone _ Hno)).
    reflexivity.
  - split.
    + intros data out_file before actor after w w0 tr0 pos Hfirst Hbefore path.
      rewrite savePointData_run in *.
      destruct (export_loop (cleaner_Update cleaner data) out_file before 1 w)
        as [[r1 w1] tr1] eqn:Hloop.
      injection Hbefore as -> -> <-.
      rewrite (export_loop_continues _ _ before (actor :: after) _ _ _ _ Hloop).
      destruct (export_loop_loads_head (cleaner_Update cleaner data) out_file
                  actor after
                  (1 + Z.of_nat (List.length (load_paths before))) w0 pos
                  (proj2 (find_first_occurrence _ _) Hfirst))
        as (r & w' & tail & ->).
      exists r, w', tail. rewrite <- app_assoc. reflexivity.
    + intros data out_file actors w w' tr Hrun.
      eapply protocol_true_reads;
        [eapply savePointData_protocol; exact Hrun | reflexivity].
Qed.


(** C9, as amended: with the deduplicator of the specification at
    tolerance 0 no two points of the cleaned geometry are identical;
    when at least one point was pruned and the difference fits an int,
    the count printed is the original point count minus the cleaned
    point count; when no point was pruned no count is printed. *)
Theorem pruned_count_reported_when_pruned
    (data : vtkPolyData) (out_file : string)
    (actors : list (string * CloudActor)) (w : World) :
  NoDup (GeometryDeduplicator.points_of
           (GeometryDeduplicator.deduplicate cleaner data))
  /\
  (GetNumberOfPoints (cleaner_Update cleaner data) <> GetNumberOfPoints data ->
   - 2 ^ 31 <= GetNumberOfPoints data
               - GetNumberOfPoints (cleaner_Update cleaner data) < 2 ^ 31 ->
   pruned_count_reported data out_file actors w)
  /\
  (GetNumberOfPoints (cleaner_Update cleaner data) = GetNumberOfPoints data ->
   forall r w' tr,
     savePointData data out_file actors w = (r, w', tr) ->
     existsb reports_pruning tr = false).
Proof.
  split; [apply deduplicate_NoDup|]. split.
  - intros Hpruned Hfits. unfold pruned_count_reported.
    rewrite savePointData_run.
    destruct (export_loop (cleaner_Update cleaner data) out_file actors 1 w)
      as [[r w'] tr].
    exists r, w'. eexists. split; [reflexivity|].
    apply in_or_app. left. unfold pruning_report.
    rewrite (proj2 (Z.eqb_neq _ _) Hpruned). simpl negb. cbv iota.
    right. left. do 2 f_equal. unfold static_cast_int.
    rewrite Z.mod_small by lia. lia.
  - intros Hsame r w' tr. rewrite savePointData_run.
    destruct (export_loop (cleaner_Update cleaner data) out_file actors 1 w)
      as [[r1 w1] tr1] eqn:Hloop.
    intros [= <- <- <-]. unfold pruning_report.
    rewrite (proj2 (Z.eqb_eq _ _) Hsame). simpl.
    eapply export_loop_quiet. exact Hloop.
Qed.

End ExportClaims.

(** ** Exports of the sample registry *)

Section SampleExports.

Import Sample MoreSamples.

Lemma export_is_fail_fast_witness :
  FileIO.load "b.pcd" disk_after_first
    = (-1, FileIO.empty_cloud, disk_after_first) /\
  exists tr,
    run displayed "out" three_sources disk_without_b
      = (Ok false, disk_after_first, tr) /\
    io_calls tr =
      [Load "a.pcd" 0; Save (output_name "out" 1) 0; Load "b.pcd" (-1)] /\
    written_names (io_calls tr) = [output_name "out" 1].
Proof.
  split; [vm_compute; reflexivity|].
  apply (proj2 (@export_is_fail_fast SpatialIndex.linear_scan
                  FileIO.collaborators)
           displayed "out" ("a.pcd", tt) ("b.pcd-1", tt) ("c.pcd", tt)
           disk_without_b "a.pcd" "b.pcd" 0 reference disk_without_b
           [0; 3] 0 disk_after_first FileIO.empty_cloud disk_after_first).
  - vm_compute. reflexivity.
  - vm_compute. reflexivity.
  - vm_compute. reflexivity.
  - lia.
  - vm_compute. reflexivity.
  - vm_compute. reflexivity.
  - lia.
  - vm_compute. reflexivity.
Defined.

Lemma marker_decides_the_entry_witness :
  ((forall pos, String.substring pos 4 "floor" <> ".pcd"%string) /\
   run displayed "out"
       ([("a.pcd", tt)] ++ ("floor", tt) :: [("b.pcd-1", tt); ("c.pcd", tt)])
       full_disk =
   run displayed "out"
       ([("a.pcd", tt)] ++ [("b.pcd-1", tt); ("c.pcd", tt)])
       full_disk)
  /\
  (first_occurrence marker "b.pcd-1" 1%nat /\
   run displayed "out" [("floor", tt)] full_disk = (Ok true, full_disk, []) /\
   let path := (String.substring 0 1 "b.pcd-1" ++ ".pcd")%string in
   exists r w' tail,
     run displayed "out"
         ([("floor", tt)] ++ ("b.pcd-1", tt) :: [("c.pcd", tt)]) full_disk =
     (r, w',
      [] ++ console print_debug "  Load: %s ... " (StrArg path)
         :: load_call path (fst (fst (FileIO.load path full_disk))) :: tail)).
Proof.
  assert (Hfloor : forall pos, String.substring pos 4 "floor" <> ".pcd"%string)
    by exact (proj1 (find_no_occurrence "floor") eq_refl).
  assert (Hfirst : first_occurrence marker "b.pcd-1" 1%nat)
    by exact (proj1 (find_first_occurrence "b.pcd-1" 1%nat) eq_refl).
  assert (Hbefore : run displayed "out" [("floor", tt)] full_disk
                    = (Ok true, full_disk, []))
    by reflexivity.
  split; [split; [exact Hfloor|] | split; [exact Hfirst | split; [exact Hbefore|]]].
  - apply (proj1 (proj2 (proj2 (proj2 (proj2
             (@marker_decides_the_entry SpatialIndex.linear_scan
                FileIO.collaborators)))))
             displayed "out" [("a.pcd", tt)] ("floor", tt)
             [("b.pcd-1", tt); ("c.pcd", tt)] full_disk).
    exact Hfloor.
  - apply (proj1 (proj2 (proj2 (proj2 (proj2 (proj2
             (@marker_decides_the_entry SpatialIndex.linear_scan
                FileIO.collaborators))))))
             displayed "out" [("floor", tt)] ("b.pcd-1", tt)
             [("c.pcd", tt)] full_disk full_disk [] 1%nat).
    + exact Hfirst.
    + exact Hbefore.
Defined.


Lemma pruned_count_reported_when_pruned_witness :
  GetNumberOfPoints repeated = 3 /\
  GetNumberOfPoints (GeometryDeduplicator.deduplicate cleaner repeated) = 2 /\
  @pruned_count_reported SpatialIndex.linear_scan FileIO.collaborators
    repeated "out" [] full_disk.
Proof.
  split; [reflexivity|]. split; [vm_compute; reflexivity|].
  apply (proj1 (proj2
           (@pruned_count_reported_when_pruned SpatialIndex.linear_scan
              FileIO.collaborators repeated "out" [] full_disk))).
  - vm_compute. discriminate.
  - vm_compute. split; [discriminate | reflexivity].
Defined.

Lemma constant_points_of (n : nat) (start : nat)
    (p : GeometryDeduplicator.Point3) :
  map (fun i => (fun _ : Z => p) (Z.of_nat i)) (seq start n) = repeat p n.
Proof.
  revert start. induction n as [|n IH]; intros start; simpl;
    [reflexivity | f_equal; apply IH].
Qed.

Lemma merge_copies (n : nat) (p : GeometryDeduplicator.Point3) :
  GeometryDeduplicator.merge double_zero [p] (repeat p n) = [p].
Proof.
  induction n as [|n IH]; simpl; [reflexivity|].
  rewrite (proj2 (coincident_at_zero p p) eq_refl). simpl. exact IH.
Qed.

Lemma deduplicate_copies (n : Z) (p : GeometryDeduplicator.Point3) :
  0 < n ->
  GeometryDeduplicator.deduplicate cleaner
    {| GetNumberOfPoints := n; GetPoint := fun _ => p |} =
  GeometryDeduplicator.geometry_of [p].
Proof.
  intros Hn.
  unfold GeometryDeduplicator.deduplicate, GeometryDeduplicator.points_of.
  simpl. rewrite constant_points_of.
  destruct (Z.to_nat n) as [|m] eqn:Hm; [lia|].
  simpl. rewrite merge_copies. reflexivity.
Qed.

Lemma many_origins_cleaned :
  GeometryDeduplicator.deduplicate cleaner many_origins =
  GeometryDeduplicator.geometry_of [(d0, d0, d0)].
Proof. apply (deduplicate_copies (2 ^ 31 + 1) (d0, d0, d0)). lia. Qed.

(** C9 as first stated fails in two places: when no point was pruned
    nothing is printed, and a count of 2^31 pruned points is printed as
    a negative int. *)
Lemma pruned_count_not_always_reported :
  ~ @pruned_count_reported SpatialIndex.linear_scan FileIO.collaborators
      displayed "out" [] full_disk
  /\
  ~ @pruned_count_reported SpatialIndex.linear_scan FileIO.collaborators
      many_origins "out" [] full_disk.
Proof.
  split.
  - intros (r & w' & tr & Hrun & Hin).
    assert (Hquiet :
              @savePointData SpatialIndex.linear_scan FileIO.collaborators
                displayed "out" [] full_disk = (Ok true, full_disk, []))
      by reflexivity.
    rewrite Hquiet in Hrun.
    injection Hrun as _ _ <-. destruct Hin.
  - intros (r & w' & tr & Hrun & Hin).
    rewrite savePointData_run in Hrun.
    change (@cleaner_Update FileIO.collaborators)
      with GeometryDeduplicator.deduplicate in *.
    rewrite many_origins_cleaned in *.
    unfold export_loop, io_ret, pruning_report in Hrun.
    change (GetNumberOfPoints (GeometryDeduplicator.geometry_of [(d0, d0, d0)]))
      with 1 in *.
    change (GetNumberOfPoints many_origins) with (2 ^ 31 + 1) in *.
    replace (1 =? 2 ^ 31 + 1) with false in Hrun
      by (symmetry; apply Z.eqb_neq; lia).
    simpl negb in Hrun. cbv iota in Hrun.
    injection Hrun as _ _ <-.
    destruct Hin as [Hin | [Hin | []]]; [discriminate|].
    injection Hin as Hin. vm_compute in Hin. discriminate.
Qed.

End SampleExports.

(** * Further properties of the code *)

(** ** getCorrespondingPointCloud, beyond the claims *)

Section MoreOnCorrespondence.

Context {kd_impl : KdTreeFLANN}.

(** Two strictly ascending lists with the same elements are equal. *)
Lemma ascending_ext (l l' : list Z) :
  ascending l -> ascending l' ->
  (forall a, In a l <-> In a l') ->
  l = l'.
Proof.
  unfold ascending. intros Hl. revert l'.
  induction Hl as [|b l Hs IH Hall]; intros l' Hl' Hsame.
  - destruct l' as [|c l']; [reflexivity|].
    exfalso. apply (proj2 (Hsame c)). left. reflexivity.
  - destruct Hl' as [|c l' Hs' Hall'].
    + exfalso. apply (proj1 (Hsame b)). left. reflexivity.
    + rewrite Forall_forall in Hall, Hall'.
      assert (Hbc : b = c).
      { destruct (proj1 (Hsame b) (or_introl eq_refl)) as [Hc|Hc];
          [congruence|].
        destruct (proj2 (Hsame c) (or_introl eq_refl)) as [Hb|Hb];
          [congruence|].
        specialize (Hall c Hb). specialize (Hall' b Hc). lia. }
      subst c. f_equal. apply IH; [exact Hs'|].
      intros a. split; intros Ha.
      * destruct (proj1 (Hsame a) (or_intror Ha)) as [<-|H]; [|exact H].
        specialize (Hall b Ha). lia.
      * destruct (proj2 (Hsame a) (or_intror Ha)) as [<-|H]; [|exact H].
        specialize (Hall' b Ha). lia.
Qed.

Lemma sort_unique_ext (l l' : list Z) :
  (forall a, In a l <-> In a l') ->
  Std.unique (Std.sort l) = Std.unique (Std.sort l').
Proof.
  intros Hsame. apply ascending_ext; try apply sort_unique_ascending.
  intros a. rewrite !sort_unique_In. apply Hsame.
Qed.

(** X1: a second call that starts from the indices a first call
    returned returns the same indices. *)
Theorem correspondence_idempotent
    (src : vtkPolyData) (tgt : PointCloud) (indices out : Indices) :
  getCorrespondingPointCloud src tgt indices = Ok out ->
  getCorrespondingPointCloud src tgt out = Ok out.
Proof.
  intros Hrun.
  destruct (getCorrespondingPointCloud_inv _ _ _ _ Hrun) as (cloud & Hc & Hr).
  destruct (resolve_inv _ _ _ _ Hr) as (kdtree & found & Hk & Hf & ->).
  unfold getCorrespondingPointCloud. rewrite Hc. simpl.
  rewrite (resolve_run _ _ _ _ _ Hk Hf). apply f_equal.
  apply sort_unique_ext. intros a.
  rewrite !in_app_iff, sort_unique_In, in_app_iff. tauto.
Qed.

Lemma answers_permuted (kdtree : KdTree) (pts pts' : list PointXYZ) :
  Permutation pts pts' ->
  match answers kdtree pts, answers kdtree pts' with
  | Ok found, Ok found' => Permutation found found'
  | Fail f, Fail f' => f = f'
  | _, _ => False
  end.
Proof.
  induction 1 as [|p l l' Hp IH|p q l|l l' l'' H1 IH1 H2 IH2]; simpl.
  - constructor.
  - destruct (nearest_index kdtree p); [|reflexivity].
    destruct (answers kdtree l), (answers kdtree l'); simpl;
      try contradiction; [constructor; exact IH | exact IH].
  - destruct (nearest_index kdtree p), (nearest_index kdtree q);
      destruct (answers kdtree l) eqn:Hl; simpl; try reflexivity.
    apply perm_swap.
  - destruct (answers kdtree l), (answers kdtree l'), (answers kdtree l'');
      try contradiction; [eapply Permutation_trans; eassumption | congruence].
Qed.

(** X2: the order of the displayed points and the order and
    repetitions of the initial indices do not matter: two runs whose
    extracted point vectors are permutations of each other and whose
    initial vectors hold the same indices have the same outcome. *)
Theorem correspondence_order_independent
    (src src' : vtkPolyData) (tgt : PointCloud) (indices indices' : Indices)
    (cloud cloud' : PointCloud) :
  extract_cloud src = Ok cloud ->
  extract_cloud src' = Ok cloud' ->
  Permutation (points cloud) (points cloud') ->
  (forall i, In i indices <-> In i indices') ->
  getCorrespondingPointCloud src tgt indices =
  getCorrespondingPointCloud src' tgt indices'.
Proof.
  intros Hc Hc' Hperm Hsame. unfold getCorrespondingPointCloud, resolve.
  rewrite Hc, Hc'. simpl.
  destruct (setInputCloud tgt) as [kdtree|f]; [|reflexivity]. simpl.
  rewrite !nearest_loop_answers.
  pose proof (answers_permuted kdtree _ _ Hperm) as Hans.
  destruct (answers kdtree (points cloud)) as [found|f],
           (answers kdtree (points cloud')) as [found'|f'];
    try contradiction; simpl; [|congruence].
  apply f_equal. apply sort_unique_ext. intros a. rewrite !in_app_iff.
  split; (intros [H|H]; [left; apply Hsame; exact H | right]).
  - eapply Permutation_in; eassumption.
  - eapply Permutation_in; [apply Permutation_sym|]; eassumption.
Qed.

(** X3: in a run whose vector accesses are all in range (outcome
    [Ok]) the kd-tree answered every displayed point, and no index is
    made up: every index of the output was in the vector on entry or is
    the answer of the kd-tree for one of the displayed points.  Runs in
    which the kd-tree leaves [nn_indices] empty are not of this kind. *)
Theorem correspondence_indices_have_a_source
    (src : vtkPolyData) (tgt : PointCloud) (indices out : Indices) :
  getCorrespondingPointCloud src tgt indices = Ok out ->
  exists cloud kdtree,
    extract_cloud src = Ok cloud /\
    setInputCloud tgt = Ok kdtree /\
    (forall p, In p (points cloud) ->
       exists i, nearest_index kdtree p = Some i /\ In i out) /\
    forall i, In i out ->
      In i indices \/
      exists p, In p (points cloud) /\ nearest_index kdtree p = Some i.
Proof.
  intros Hrun.
  destruct (getCorrespondingPointCloud_inv _ _ _ _ Hrun) as (cloud & Hc & Hr).
  destruct (resolve_inv _ _ _ _ Hr) as (kdtree & found & Hk & Hf & ->).
  exists cloud, kdtree. split; [exact Hc|]. split; [exact Hk|]. split.
  - intros p Hp. destruct (answers_covers _ _ _ Hf p Hp) as (i & Hi & Hin).
    exists i. split; [exact Hi|].
    apply sort_unique_In, in_or_app. right. exact Hin.
  - intros i Hi. apply (proj1 (sort_unique_In _ _)) in Hi.
    apply in_app_or in Hi. destruct Hi as [Hi|Hi]; [left; exact Hi|].
    right. exact (answers_from _ _ _ Hf i Hi).
Qed.

(** X4: with a kd-tree that keeps its contract and a non-empty
    reference cloud, a run that starts from indices of the reference
    cloud returns only indices of the reference cloud, at most as many
    as the reference cloud has points. *)
Theorem correspondence_stays_in_reference
    (contract : KdTreeContract kd_impl)
    (src : vtkPolyData) (tgt : PointCloud) (indices out : Indices) :
  points tgt <> [] ->
  Forall (fun i => 0 <= i < Z.of_nat (List.length (points tgt))) indices ->
  getCorrespondingPointCloud src tgt indices = Ok out ->
  Forall (fun i => 0 <= i < Z.of_nat (List.length (points tgt))) out /\
  (List.length out <= List.length (points tgt))%nat.
Proof.
  intros Htgt Hin Hrun.
  destruct (getCorrespondingPointCloud_inv _ _ _ _ Hrun) as (cloud & Hc & Hr).
  destruct (resolve_inv _ _ _ _ Hr) as (kdtree & found & Hk & Hf & ->).
  assert (Hall : Forall (fun i => 0 <= i < Z.of_nat (List.length (points tgt)))
                   (Std.unique (Std.sort (indices ++ found)))).
  { apply Forall_forall. intros i Hi.
    apply (proj1 (sort_unique_In _ _)) in Hi. apply in_app_or in Hi.
    destruct Hi as [Hi|Hi].
    - rewrite Forall_forall in Hin. exact (Hin i Hi).
    - destruct (answers_from _ _ _ Hf i Hi) as (p & _ & Hp).
      destruct (answer_in_reference tgt kdtree p Htgt Hk) as (n & Hn & Hr').
      congruence. }
  split; [exact Hall|].
  pose proof (ascending_bounded_length _ 0 _
                (sort_unique_ascending (indices ++ found)) Hall).
  lia.
Qed.

(** X5: from 2^32 displayed points on the run never returns: the copy
    loop writes past the resized cloud before the kd-tree is built. *)
Theorem point_count_beyond_width_fails
    (src : vtkPolyData) (tgt : PointCloud) (indices : Indices) :
  2 ^ 32 <= GetNumberOfPoints src ->
  getCorrespondingPointCloud src tgt indices = Fail VectorOutOfRange.
Proof.
  intros Hn. unfold getCorrespondingPointCloud.
  rewrite (extract_cloud_overruns src Hn). reflexivity.
Qed.

Lemma answers_missing (kdtree : KdTree) (pts : list PointXYZ) (p : PointXYZ) :
  In p pts -> nearest_index kdtree p = None ->
  answers kdtree pts = Fail VectorOutOfRange.
Proof.
  induction pts as [|q pts IH]; simpl; intros Hin Hp; [contradiction|].
  destruct Hin as [->|Hin]; [rewrite Hp; reflexivity|].
  destruct (nearest_index kdtree q); [|reflexivity].
  rewrite (IH Hin Hp). reflexivity.
Qed.

(** X6: the result of [nearestKSearch] is not checked: when the
    kd-tree leaves [nn_indices] empty for one displayed point, the read
    of [nn_indices[0]] is past the end of the vector, which the C++
    standard leaves undefined; the outcome is [Fail VectorOutOfRange],
    whatever the other points and the initial vector are. *)
Theorem unanswered_query_fails
    (src : vtkPolyData) (tgt : PointCloud) (indices : Indices)
    (cloud : PointCloud) (kdtree : KdTree) (p : PointXYZ) :
  extract_cloud src = Ok cloud ->
  setInputCloud tgt = Ok kdtree ->
  In p (points cloud) ->
  nearest_index kdtree p = None ->
  getCorrespondingPointCloud src tgt indices = Fail VectorOutOfRange.
Proof.
  intros Hc Hk Hin Hp. unfold getCorrespondingPointCloud, resolve.
  rewrite Hc. simpl. rewrite Hk. simpl.
  rewrite nearest_loop_answers, (answers_missing _ _ _ Hin Hp). reflexivity.
Qed.

End MoreOnCorrespondence.

(** ** savePointData, beyond the claims *)

Section MoreOnExport.

Context {kd_impl : KdTreeFLANN} {env : Collaborators}.

Lemma export_loop_no_sources (output : vtkPolyData) (out_file : string)
    (actors : list (string * CloudActor)) (i : Z) (w : World) :
  (forall actor, In actor actors -> load_path (fst actor) = None) ->
  export_loop output out_file actors i w = (Ok true, w, []).
Proof.
  induction actors as [|actor rest IH]; intros Hnone; [reflexivity|].
  rewrite export_loop_cons.
  pose proof (iteration_of_calls output out_file actor i w) as Hit.
  pose proof (Hnone actor (or_introl eq_refl)) as Hactor.
  destruct (iteration_of output out_file actor i w).
  - apply IH. intros a Ha. apply Hnone. right. exact Ha.
  - destruct Hit as (path & Hp & _). congruence.
  - destruct Hit as (path & ? & ? & Hp & _). congruence.
Qed.

(** X7: over a registry none of whose display names holds ".pcd" (an
    empty registry among them) [savePointData] returns [true], reads and
    writes nothing, leaves the world as it was and prints at most the
    pruning report. *)
Theorem registry_without_sources_succeeds
    (data : vtkPolyData) (out_file : string)
    (actors : list (string * CloudActor)) (w : World) :
  (forall actor, In actor actors ->
     forall pos, String.substring pos 4 (fst actor) <> ".pcd"%string) ->
  savePointData data out_file actors w =
  (Ok true, w, pruning_report data (cleaner_Update cleaner data)).
Proof.
  intros Hnone. rewrite savePointData_run.
  rewrite export_loop_no_sources.
  - rewrite app_nil_r. reflexivity.
  - intros actor Hin. unfold load_path.
    rewrite (proj2 (find_no_occurrence (fst actor)) (Hnone actor Hin)).
    reflexivity.
Qed.

(** What a pass writes was matched against what the pass read. *)
Lemma iteration_of_saves (output : vtkPolyData) (out_file : string)
    (actor : string * CloudActor) (i : Z) (w : World)
    (name : string) (cloud_out : PCLPointCloud2) (sret : Z) :
  In (save_call name cloud_out sret)
     match iteration_of output out_file actor i w with
     | Skip => []
     | Stop _ _ calls => calls
     | Next _ _ calls => calls
     end ->
  exists path ret cloud w1 indices,
    load_path (fst actor) = Some path /\
    loadPCDFile path w = (ret, cloud, w1) /\
    ret <> -1 /\
    getCorrespondingPointCloud output (fromPCLPointCloud2 cloud) [] = Ok indices /\
    cloud_out = copyPointCloud cloud indices /\
    name = output_name out_file i.
Proof.
  unfold iteration_of, load_path.
  destruct (Std.find (fst actor) marker) as [position|]; [|intros []].
  destruct (loadPCDFile _ w) as [[ret cloud] w1] eqn:Hload.
  destruct (Z.eqb_spec ret (-1)) as [->|Hret].
  { simpl. intros [H|[H|[H|[]]]]; discriminate. }
  destruct (getCorrespondingPointCloud output (fromPCLPointCloud2 cloud) [])
    as [indices|f] eqn:Hmatch.
  2:{ simpl. intros [H|[H|[H|[]]]]; discriminate. }
  destruct (i =? INT_MAX).
  { simpl. intros [H|[H|[H|[]]]]; discriminate. }
  destruct (savePCDFile _ _ true w1) as [sret' w2].
  intros Hin.
  exists (Std.substr (fst actor) 0 position ++ ".pcd")%string, ret, cloud, w1,
         indices.
  split; [reflexivity|]. split; [exact Hload|]. split; [exact Hret|].
  split; [exact Hmatch|].
  destruct (sret' =? -1); simpl in Hin;
    destruct Hin as [H|[H|[H|[H|[H|[H|[]]]]]]]; try discriminate;
    injection H as <- <- _; split; reflexivity.
Qed.

(** A write in the trace of the loop belongs to an entry the loop
    reached: the entries before it returned [true], and the cloud
    written was matched against the cloud read for that entry. *)
Lemma export_loop_saves_inv (output : vtkPolyData) (out_file : string)
    (name : string) (cloud_out : PCLPointCloud2) (sret : Z)
    (actors : list (string * CloudActor)) :
  forall i w r w' tr,
    export_loop output out_file actors i w = (r, w', tr) ->
    In (save_call name cloud_out sret) tr ->
    exists front actor back w0 tr0 path ret cloud w1 indices,
      actors = front ++ actor :: back /\
      export_loop output out_file front i w = (Ok true, w0, tr0) /\
      load_path (fst actor) = Some path /\
      loadPCDFile path w0 = (ret, cloud, w1) /\
      ret <> -1 /\
      getCorrespondingPointCloud output (fromPCLPointCloud2 cloud) []
        = Ok indices /\
      cloud_out = copyPointCloud cloud indices /\
      name = output_name out_file
               (i + Z.of_nat (List.length (load_paths front))).
Proof.
  induction actors as [|actor rest IH]; intros i w r w' tr Hrun Hin.
  - simpl in Hrun. injection Hrun as _ _ <-. contradiction.
  - rewrite export_loop_cons in Hrun.
    pose proof (iteration_of_saves output out_file actor i w
                  name cloud_out sret) as Hhere.
    pose proof (iteration_of_calls output out_file actor i w) as Hcalls.
    assert (Hfirst : In (save_call name cloud_out sret)
                        match iteration_of output out_file actor i w with
                        | Skip => []
                        | Stop _ _ calls => calls
                        | Next _ _ calls => calls
                        end ->
                     exists front actor0 back w0 tr0 path ret cloud w1 indices,
                       actor :: rest = front ++ actor0 :: back /\
                       export_loop output out_file front i w = (Ok true, w0, tr0) /\
                       load_path (fst actor0) = Some path /\
                       loadPCDFile path w0 = (ret, cloud, w1) /\
                       ret <> -1 /\
                       getCorrespondingPointCloud output
                         (fromPCLPointCloud2 cloud) [] = Ok indices /\
                       cloud_out = copyPointCloud cloud indices /\
                       name = output_name out_file
                                (i + Z.of_nat (List.length (load_paths front)))).
    { intros H. destruct (Hhere H)
        as (path & ret & cloud & w1 & indices & Hp & Hl & Hr & Hm & Hc & Hn).
      exists [], actor, rest, w, [], path, ret, cloud, w1, indices.
      repeat (split; [first [reflexivity | assumption]|]).
      simpl. rewrite Z.add_0_r. exact Hn. }
    destruct (iteration_of output out_file actor i w)
      as [|r0 w0 calls|i' w0 calls] eqn:Hit.
    + destruct (IH _ _ _ _ _ Hrun Hin)
        as (front & actor0 & back & w1 & tr0 & path & ret & cloud & w2 & indices
            & -> & Hfront & Hp & Hl & Hr & Hm & Hc & Hn).
      exists (actor :: front), actor0, back, w1, tr0, path, ret, cloud, w2,
             indices.
      split; [reflexivity|]. split.
      { rewrite export_loop_cons, Hit. exact Hfront. }
      repeat (split; [assumption|]).
      simpl load_paths. rewrite Hcalls. exact Hn.
    + injection Hrun as _ _ <-. apply Hfirst. exact Hin.
    + destruct (export_loop output out_file rest i' w0)
        as [[r2 w2] tr2] eqn:Hrest.
      injection Hrun as _ _ <-.
      apply in_app_or in Hin. destruct Hin as [Hin|Hin]; [apply Hfirst, Hin|].
      destruct (IH _ _ _ _ _ Hrest Hin)
        as (front & actor0 & back & w1 & tr0 & path & ret & cloud & w3 & indices
            & -> & Hfront & Hp & Hl & Hr & Hm & Hc & Hn).
      destruct Hcalls as (path0 & ret0 & sret0 & Hp0 & _ & _ & -> & _).
      exists (actor :: front), actor0, back, w1, (calls ++ tr0), path, ret,
             cloud, w3, indices.
      split; [reflexivity|]. split.
      { rewrite export_loop_cons, Hit, Hfront. reflexivity. }
      repeat (split; [assumption|]).
      simpl load_paths. rewrite Hp0. simpl List.length. rewrite Hn.
      f_equal. lia.
Qed.

(** An entry the loop reaches and matches is written. *)
Lemma export_loop_saves_reached (output : vtkPolyData) (out_file : string)
    (front back : list (string * CloudActor)) (actor : string * CloudActor)
    (i : Z) (w w0 : World) (tr0 : list event)
    (path : string) (ret : Z) (cloud : PCLPointCloud2) (w1 : World)
    (indices : Indices) :
  export_loop output out_file front i w = (Ok true, w0, tr0) ->
  load_path (fst actor) = Some path ->
  loadPCDFile path w0 = (ret, cloud, w1) ->
  ret <> -1 ->
  getCorrespondingPointCloud output (fromPCLPointCloud2 cloud) [] = Ok indices ->
  i + Z.of_nat (List.length (load_paths front)) <> INT_MAX ->
  let name :=
    output_name out_file (i + Z.of_nat (List.length (load_paths front))) in
  let cloud_out := copyPointCloud cloud indices in
  In (save_call name cloud_out (fst (savePCDFile name cloud_out true w1)))
     (snd (export_loop output out_file (front ++ actor :: back) i w)).
Proof.
  intros Hfront Hpath Hload Hret Hmatch Hi name cloud_out.
  rewrite (export_loop_continues _ _ front (actor :: back) _ _ _ _ Hfront).
  rewrite export_loop_cons. unfold iteration_of.
  unfold load_path in Hpath.
  destruct (Std.find (fst actor) marker) as [position|]; [|discriminate].
  injection Hpath as Hpath. rewrite Hpath, Hload, (eqb_minus_one ret Hret).
  rewrite Hmatch, (proj2 (Z.eqb_neq _ _) Hi).
  fold name. fold cloud_out.
  destruct (savePCDFile name cloud_out true w1) as [sret w2].
  simpl fst.
  destruct (sret =? -1).
  - simpl snd. apply in_or_app. right. simpl. do 4 right. left. reflexivity.
  - destruct (export_loop output out_file back _ w2) as [[r w3] tr3].
    simpl snd. apply in_or_app. right.
    simpl. do 4 right. left. reflexivity.
Qed.

(** X8: the writes of a run are exactly the matched copies of the
    entries it reaches.  Every cloud handed to the writer belongs to an
    entry of the registry that carries the marker and was reached (the
    entries before it returned [true]): it is [copyPointCloud] of the
    cloud read from that entry's path in the world they left, at the
    indices [getCorrespondingPointCloud] matched from an empty vector
    against the cleaned geometry, which are strictly ascending and free
    of repetitions, under the name with the entry's sequence number.
    Conversely every such entry that is read and matched is written. *)
Theorem written_clouds_are_matched_copies
    (data : vtkPolyData) (out_file : string)
    (actors : list (string * CloudActor)) (w : World)
    (r : result bool) (w' : World) (tr : list event) :
  savePointData data out_file actors w = (r, w', tr) ->
  (forall name cloud_out sret,
     In (save_call name cloud_out sret) tr ->
     exists front actor back w0 tr0 path ret cloud w1 indices,
       actors = front ++ actor :: back /\
       savePointData data out_file front w = (Ok true, w0, tr0) /\
       load_path (fst actor) = Some path /\
       loadPCDFile path w0 = (ret, cloud, w1) /\
       ret <> -1 /\
       getCorrespondingPointCloud (cleaner_Update cleaner data)
         (fromPCLPointCloud2 cloud) [] = Ok indices /\
       cloud_out = copyPointCloud cloud indices /\
       name = output_name out_file
                (1 + Z.of_nat (List.length (load_paths front))) /\
       ascending indices /\
       NoDup indices)
  /\
  (forall front actor back w0 tr0 path ret cloud w1 indices,
     actors = front ++ actor :: back ->
     savePointData data out_file front w = (Ok true, w0, tr0) ->
     load_path (fst actor) = Some path ->
     loadPCDFile path w0 = (ret, cloud, w1) ->
     ret <> -1 ->
     getCorrespondingPointCloud (cleaner_Update cleaner data)
       (fromPCLPointCloud2 cloud) [] = Ok indices ->
     1 + Z.of_nat (List.length (load_paths front)) <> INT_MAX ->
     let name :=
       output_name out_file (1 + Z.of_nat (List.length (load_paths front))) in
     let cloud_out := copyPointCloud cloud indices in
     In (save_call name cloud_out (fst (savePCDFile name cloud_out true w1)))
        tr).
Proof.
  rewrite savePointData_run.
  destruct (export_loop (cleaner_Update cleaner data) out_file actors 1 w)
    as [[r1 w1] tr1] eqn:Hloop.
  intros [= <- <- <-]. split.
  - intros name cloud_out sret Hin.
    assert (Hloopin : In (save_call name cloud_out sret) tr1).
    { apply in_app_or in Hin. destruct Hin as [Hin|Hin]; [|exact Hin].
      unfold pruning_report in Hin.
      destruct (negb _) in Hin; simpl in Hin;
        [destruct Hin as [H|[H|[]]]; discriminate | contradiction]. }
    destruct (export_loop_saves_inv _ _ _ _ _ _ _ _ _ _ _ Hloop Hloopin)
      as (front & actor & back & w0 & tr0 & path & ret & cloud & w2 & indices
          & Hact & Hfront & Hp & Hl & Hr & Hm & Hc & Hn).
    exists front, actor, back, w0,
           (pruning_report data (cleaner_Update cleaner data) ++ tr0),
           path, ret, cloud, w2, indices.
    split; [exact Hact|]. split.
    { rewrite savePointData_run, Hfront. reflexivity. }
    repeat (split; [assumption|]).
    destruct (getCorrespondingPointCloud_inv _ _ _ _ Hm) as (c & _ & Hres).
    destruct (resolve_inv _ _ _ _ Hres) as (kdtree & found & _ & _ & Hi).
    rewrite Hi.
    split; [apply sort_unique_ascending|].
    apply ascending_NoDup, sort_unique_ascending.
  - intros front actor back w0 tr0 path ret cloud w2 indices
           Hact Hfront Hp Hl Hr Hm Hi name cloud_out.
    rewrite savePointData_run in Hfront.
    destruct (export_loop (cleaner_Update cleaner data) out_file front 1 w)
      as [[r0 w0'] tr0'] eqn:Hfl.
    injection Hfront as -> -> _.
    pose proof (export_loop_saves_reached _ out_file front back actor 1 w w0
                  tr0' path ret cloud w2 indices Hfl Hp Hl Hr Hm Hi) as Hin.
    rewrite <- Hact, Hloop in Hin. simpl snd in Hin.
    apply in_or_app. right. exact Hin.
Qed.

Lemma error_prints_app (t1 t2 : list event) :
  error_prints (t1 ++ t2) = (error_prints t1 + error_prints t2)%nat.
Proof. unfold error_prints. rewrite filter_app, length_app. reflexivity. Qed.

Lemma iteration_of_error_prints (output : vtkPolyData) (out_file : string)
    (actor : string * CloudActor) (i : Z) (w : World) :
  match iteration_of output out_file actor i w with
  | Skip => True
  | Stop (Ok false) _ calls => error_prints calls = 1%nat
  | Stop _ _ calls => error_prints calls = 0%nat
  | Next _ _ calls => error_prints calls = 0%nat
  end.
Proof.
  unfold iteration_of.
  destruct (Std.find (fst actor) marker); [|exact I].
  destruct (loadPCDFile _ w) as [[ret cloud] w1].
  destruct (ret =? -1); [reflexivity|].
  destruct (getCorrespondingPointCloud _ _ _); [|reflexivity].
  destruct (i =? INT_MAX); [reflexivity|].
  destruct (savePCDFile _ _ true w1) as [sret w2].
  destruct (sret =? -1); reflexivity.
Qed.

Lemma export_loop_error_prints (output : vtkPolyData) (out_file : string)
    (actors : list (string * CloudActor)) :
  forall i w r w' tr,
    export_loop output out_file actors i w = (r, w', tr) ->
    error_prints tr = match r with Ok false => 1%nat | _ => 0%nat end.
Proof.
  induction actors as [|actor rest IH]; intros i w r w' tr Hrun.
  - simpl in Hrun. injection Hrun as <- <- <-. reflexivity.
  - rewrite export_loop_cons in Hrun.
    pose proof (iteration_of_error_prints output out_file actor i w) as Hit.
    destruct (iteration_of output out_file actor i w) as [|r0 w0 calls|i' w0 calls].
    + eapply IH. exact Hrun.
    + injection Hrun as <- <- <-. destruct r0 as [[|]|f]; exact Hit.
    + destruct (export_loop output out_file rest i' w0)
        as [[r1 w1] tr1] eqn:Hrest.
      injection Hrun as <- <- <-.
      rewrite error_prints_app, Hit. simpl. eapply IH. exact Hrest.
Qed.

(** X9: [print_error] is called once when [savePointData] returns
    [false] and not at all otherwise. *)
Theorem one_error_message_per_failure
    (data : vtkPolyData) (out_file : string)
    (actors : list (string * CloudActor)) (w : World)
    (r : result bool) (w' : World) (tr : list event) :
  savePointData data out_file actors w = (r, w', tr) ->
  error_prints tr = match r with Ok false => 1%nat | _ => 0%nat end.
Proof.
  rewrite savePointData_run.
  destruct (export_loop (cleaner_Update cleaner data) out_file actors 1 w)
    as [[r1 w1] tr1] eqn:Hloop.
  intros [= <- <- <-]. rewrite error_prints_app.
  rewrite (export_loop_error_prints _ _ _ _ _ _ _ _ Hloop).
  unfold pruning_report. destruct (negb _); reflexivity.
Qed.

(** X10: a registry can be exported in two parts: when the run over
    the front part returns [true], the run over the whole registry is
    that run followed by the loop over the back part, started in the
    world the front part left and numbering its files after those of
    the front part. *)
Theorem export_of_appended_registry
    (data : vtkPolyData) (out_file : string)
    (front back : list (string * CloudActor)) (w w1 : World)
    (tr1 : list event) :
  savePointData data out_file front w = (Ok true, w1, tr1) ->
  savePointData data out_file (front ++ back) w =
  let '(r, w2, tr2) :=
    export_loop (cleaner_Update cleaner data) out_file back
      (1 + Z.of_nat (List.length (load_paths front))) w1 in
  (r, w2, tr1 ++ tr2).
Proof.
  rewrite !savePointData_run.
  destruct (export_loop (cleaner_Update cleaner data) out_file front 1 w)
    as [[r0 w0] tr0] eqn:Hfront.
  intros [= -> <- <-].
  rewrite (export_loop_continues _ _ front back _ _ _ _ Hfront).
  destruct (export_loop (cleaner_Update cleaner data) out_file back
              (1 + Z.of_nat (List.length (load_paths front))) w0)
    as [[r w2] tr2].
  rewrite app_assoc. reflexivity.
Qed.

End MoreOnExport.

(** ** Display names, load paths and output names *)

Section Names.

Lemma append_assoc_string (a b c : string) :
  ((a ++ b) ++ c = a ++ (b ++ c))%string.
Proof. induction a as [|x a IH]; simpl; [reflexivity | rewrite IH; reflexivity]. Qed.

Lemma index_cons (pat : string) (c : ascii) (s : string) :
  index 0 pat (String c s) =
  if prefix pat (String c s) then Some 0%nat
  else match index 0 pat s with
       | Some n => Some (S n)
       | None => None
       end.
Proof. reflexivity. Qed.

Lemma prefix_refl (a : string) : prefix a a = true.
Proof.
  induction a as [|c a IH]; simpl; [reflexivity|].
  destruct (ascii_dec c c); [exact IH | congruence].
Qed.

Lemma prefix_split (a : string) :
  forall s, prefix a s = true -> exists rest, s = (a ++ rest)%string.
Proof.
  induction a as [|c a IH]; intros s H.
  - exists s. reflexivity.
  - destruct s as [|d s]; simpl in H; [discriminate|].
    destruct (ascii_dec c d) as [->|]; [|discriminate].
    destruct (IH s H) as (rest & ->). exists rest. reflexivity.
Qed.

Lemma prefix_extend (a : string) :
  forall s rest, prefix a s = true -> prefix a (s ++ rest) = true.
Proof.
  induction a as [|c a IH]; intros s rest H.
  - destruct (s ++ rest)%string; reflexivity.
  - destruct s as [|d s]; simpl in H; [discriminate|]. simpl.
    destruct (ascii_dec c d); [apply IH; exact H | discriminate].
Qed.

Lemma substring_of_prefix (a b : string) :
  String.substring 0 (String.length a) (a ++ b) = a.
Proof.
  induction a as [|c a IH]; simpl.
  - destruct b; reflexivity.
  - rewrite IH. reflexivity.
Qed.

(** Where a non-empty pattern is found, the string is the text before
    it, the pattern, and a rest. *)
Lemma index_split (pat : string) (s : string) :
  pat <> ""%string ->
  forall pos,
    index 0 pat s = Some pos ->
    String.length (String.substring 0 pos s) = pos /\
    exists rest, s = (String.substring 0 pos s ++ pat ++ rest)%string.
Proof.
  intros Hpat. induction s as [|c s IH]; intros pos H.
  - destruct pat; [congruence | discriminate].
  - rewrite index_cons in H.
    destruct (prefix pat (String c s)) eqn:Hpre.
    + injection H as <-. split; [reflexivity|]. simpl.
      exact (prefix_split _ _ Hpre).
    + destruct (index 0 pat s) as [n|]; [|discriminate].
      injection H as <-. destruct (IH n eq_refl) as (Hlen & rest & Hs).
      split; [simpl; rewrite Hlen; reflexivity|].
      exists rest. simpl. rewrite <- Hs. reflexivity.
Qed.

(** The pattern is found at the same place once everything after it is
    cut off. *)
Lemma index_of_cut (pat : string) (s : string) :
  pat <> ""%string ->
  forall pos,
    index 0 pat s = Some pos ->
    index 0 pat (String.substring 0 pos s ++ pat) = Some pos.
Proof.
  intros Hpat. induction s as [|c s IH]; intros pos H.
  - destruct pat; [congruence | discriminate].
  - rewrite index_cons in H.
    destruct (prefix pat (String c s)) eqn:Hpre.
    + injection H as <-.
      change (String.substring 0 0 (String c s) ++ pat)%string with pat.
      destruct pat as [|a pat]; [congruence|].
      rewrite index_cons, prefix_refl. reflexivity.
    + destruct (index 0 pat s) as [n|] eqn:Hn; [|discriminate].
      injection H as <-.
      change (String.substring 0 (S n) (String c s) ++ pat)%string
        with (String c (String.substring 0 n s ++ pat)).
      rewrite index_cons, (IH n eq_refl).
      destruct (prefix pat (String c (String.substring 0 n s ++ pat)))
        eqn:Hcut; [|reflexivity].
      exfalso.
      destruct (index_split pat s Hpat n Hn) as (_ & rest & Hs).
      apply (prefix_extend _ _ rest) in Hcut.
      change (String c (String.substring 0 n s ++ pat) ++ rest)%string
        with (String c ((String.substring 0 n s ++ pat) ++ rest))%string
        in Hcut.
      rewrite append_assoc_string, <- Hs in Hcut. congruence.
Qed.

(** X11: recovering the load path is idempotent: the path recovered
    from a display name is recovered unchanged from itself, so an actor
    named by its bare file path loads that path. *)
Theorem load_path_is_a_fixed_point (name path : string) :
  load_path name = Some path ->
  load_path path = Some path.
Proof.
  unfold load_path, Std.find, Std.substr.
  destruct (index 0 marker name) as [pos|] eqn:Hpos; [|discriminate].
  intros [= <-].
  assert (Hmarker : marker <> ""%string) by discriminate.
  change ".pcd"%string with marker.
  rewrite (index_of_cut marker name Hmarker pos Hpos).
  destruct (index_split marker name Hmarker pos Hpos) as (Hlen & _).
  rewrite <- Hlen at 1. rewrite substring_of_prefix. reflexivity.
Qed.

Lemma append_length (a b : string) :
  String.length (a ++ b) = (String.length a + String.length b)%nat.
Proof. induction a as [|c a IH]; simpl; [reflexivity | rewrite IH; reflexivity]. Qed.

Lemma append_cancel_l (a s t : string) :
  (a ++ s = a ++ t)%string -> s = t.
Proof.
  induction a as [|c a IH]; simpl; intros H; [exact H|].
  injection H as H. apply IH. exact H.
Qed.

Lemma append_cancel_r (b : string) :
  forall s t, (s ++ b = t ++ b)%string -> s = t.
Proof.
  induction s as [|c s IH]; intros t H.
  - destruct t as [|d t]; [reflexivity|]. exfalso.
    apply (f_equal String.length) in H. simpl in H.
    rewrite append_length in H. lia.
  - destruct t as [|d t].
    + exfalso. apply (f_equal String.length) in H. simpl in H.
      rewrite append_length in H. lia.
    + simpl in H. injection H as -> H. f_equal. apply IH. exact H.
Qed.

Lemma to_string_inj (a b : Z) : Std.to_string a = Std.to_string b -> a = b.
Proof.
  unfold Std.to_string. intros H.
  assert (Hparse : forall n,
            NilZero.int_of_string (NilZero.string_of_int (Z.to_int n))
            = Some (Z.to_int n)).
  { intros n. apply NilZero.isi; destruct n; simpl; try discriminate;
      intros [= Hnil]; exact (DecimalPos.Unsigned.to_uint_nonnil _ Hnil). }
  apply DecimalZ.to_int_inj.
  pose proof (Hparse a) as Ha. rewrite H, Hparse in Ha. congruence.
Qed.

Lemma output_name_inj (out_file : string) (a b : Z) :
  output_name out_file a = output_name out_file b -> a = b.
Proof.
  unfold output_name. intros H.
  apply append_cancel_l, append_cancel_r in H. apply to_string_inj. exact H.
Qed.

Lemma numbers_from (i : Z) (n : nat) :
  forall k, In k (numbers i n) -> i <= k.
Proof.
  revert i. induction n as [|n IH]; intros i k; simpl; [contradiction|].
  intros [<-|Hk]; [lia|]. specialize (IH _ _ Hk). lia.
Qed.

Lemma output_names_NoDup (out_file : string) (n : nat) :
  forall i, NoDup (map (output_name out_file) (numbers i n)).
Proof.
  induction n as [|n IH]; intros i; simpl; constructor; [|apply IH].
  intros Hin. apply in_map_iff in Hin. destruct Hin as (k & Hk & Hin).
  apply output_name_inj in Hk. subst k.
  pose proof (numbers_from _ _ _ Hin). lia.
Qed.

Lemma protocol_attempted_names (out_file : string) i paths r calls :
  protocol out_file i paths r calls ->
  forall last_read,
    map snd (save_attempts last_read calls) =
    map (output_name out_file)
        (numbers i (List.length (save_attempts last_read calls))).
Proof.
  induction 1 as [i | i path paths | i path paths ret f Hret
                 | i path paths ret Hret
                 | i path paths ret sret r calls Hret Hsret Hrest IH];
    intros last_read; simpl; try reflexivity.
  f_equal. apply IH.
Qed.

End Names.

Section DistinctOutputs.

Context {kd_impl : KdTreeFLANN} {env : Collaborators}.

(** X12: one run never names the same output file twice: the names of
    its write attempts are pairwise different. *)
Theorem output_names_are_distinct
    (data : vtkPolyData) (out_file : string)
    (actors : list (string * CloudActor)) (w : World)
    (r : result bool) (w' : World) (tr : list event) :
  savePointData data out_file actors w = (r, w', tr) ->
  NoDup (map snd (save_attempts "" (io_calls tr))).
Proof.
  intros Hrun.
  pose proof (savePointData_protocol _ _ _ _ _ _ _ Hrun) as Hp.
  rewrite (protocol_attempted_names _ _ _ _ _ Hp "").
  apply output_names_NoDup.
Qed.

End DistinctOutputs.

(** ** The further properties on the sample data *)

Section MoreSampleRuns.

Import Sample MoreSamples ExtraSamples.

Let match_against (src : vtkPolyData) (tgt : PointCloud) (indices : Indices) :=
  @getCorrespondingPointCloud SpatialIndex.linear_scan src tgt indices.

Lemma correspondence_idempotent_witness :
  match_against displayed reference [7; 3; 7] = Ok [0; 3; 7] /\
  match_against displayed reference [0; 3; 7] = Ok [0; 3; 7].
Proof.
  split; [vm_compute; reflexivity|].
  apply (@correspondence_idempotent SpatialIndex.linear_scan
           displayed reference [7; 3; 7] [0; 3; 7]).
  vm_compute. reflexivity.
Defined.

Lemma correspondence_order_independent_witness :
  Permutation (displayed_points displayed) (displayed_points displayed_swapped) /\
  match_against displayed reference [7; 3] =
  match_against displayed_swapped reference [3; 7; 7].
Proof.
  assert (Hperm : Permutation (displayed_points displayed)
                              (displayed_points displayed_swapped)).
  { vm_compute. apply perm_swap. }
  split; [exact Hperm|].
  apply (@correspondence_order_independent SpatialIndex.linear_scan
           displayed displayed_swapped reference [7; 3] [3; 7; 7]
           {| width := 2; height := 1; is_dense := false;
              points := displayed_points displayed |}
           {| width := 2; height := 1; is_dense := false;
              points := displayed_points displayed_swapped |}).
  - vm_compute. reflexivity.
  - vm_compute. reflexivity.
  - exact Hperm.
  - intros i. simpl. tauto.
Defined.

Lemma correspondence_indices_have_a_source_witness :
  match_against displayed reference [7] = Ok [0; 3; 7] /\
  exists cloud kdtree,
    extract_cloud displayed = Ok cloud /\
    @setInputCloud SpatialIndex.linear_scan reference = Ok kdtree /\
    (forall p, In p (points cloud) ->
       exists i,
         @nearest_index SpatialIndex.linear_scan kdtree p = Some i /\
         In i [0; 3; 7]) /\
    forall i, In i [0; 3; 7] ->
      In i [7] \/
      exists p, In p (points cloud) /\
                @nearest_index SpatialIndex.linear_scan kdtree p = Some i.
Proof.
  split; [vm_compute; reflexivity|].
  apply (@correspondence_indices_have_a_source SpatialIndex.linear_scan
           displayed reference [7] [0; 3; 7]).
  vm_compute. reflexivity.
Defined.

Lemma correspondence_stays_in_reference_witness :
  match_against displayed reference [1] = Ok [0; 1; 3] /\
  Forall (fun i => 0 <= i < Z.of_nat (List.length (points reference)))
         [0; 1; 3] /\
  (List.length [0; 1; 3] <= List.length (points reference))%nat.
Proof.
  split; [vm_compute; reflexivity|].
  apply (@correspondence_stays_in_reference SpatialIndex.linear_scan
           linear_scan_contract displayed reference [1] [0; 1; 3]).
  - discriminate.
  - repeat constructor; simpl; lia.
  - vm_compute. reflexivity.
Defined.

Lemma point_count_beyond_width_fails_witness :
  2 ^ 32 <= GetNumberOfPoints four_gibi_points /\
  match_against four_gibi_points reference [] = Fail VectorOutOfRange.
Proof.
  split; [simpl; lia|].
  apply (@point_count_beyond_width_fails SpatialIndex.linear_scan
           four_gibi_points reference []).
  simpl. lia.
Defined.

Lemma unanswered_query_fails_witness :
  @nearest_index LenientIndex.lenient_scan []
    (pt (static_cast_float d0_01) f0 f0) = None /\
  @getCorrespondingPointCloud LenientIndex.lenient_scan
    displayed no_reference [] = Fail VectorOutOfRange.
Proof.
  split; [reflexivity|].
  apply (@unanswered_query_fails LenientIndex.lenient_scan
           displayed no_reference []
           {| width := 2; height := 1; is_dense := false;
              points := displayed_points displayed |}
           [] (pt (static_cast_float d0_01) f0 f0)).
  - vm_compute. reflexivity.
  - reflexivity.
  - left. vm_compute. reflexivity.
  - reflexivity.
Defined.

Lemma registry_without_sources_succeeds_witness :
  run repeated "out" no_sources full_disk =
  (Ok true, full_disk,
   @pruning_report FileIO.collaborators repeated
     (GeometryDeduplicator.deduplicate cleaner repeated)).
Proof.
  apply (@registry_without_sources_succeeds SpatialIndex.linear_scan
           FileIO.collaborators repeated "out" no_sources full_disk).
  intros actor [<- | [<- | []]].
  - exact (proj1 (find_no_occurrence "floor") eq_refl).
  - exact (proj1 (find_no_occurrence "axes") eq_refl).
Defined.

Lemma written_clouds_are_matched_copies_witness :
  exists front actor back w0 tr0 path ret cloud w1 indices,
    registry = front ++ actor :: back /\
    @savePointData SpatialIndex.linear_scan FileIO.collaborators
      displayed "out" front full_disk = (Ok true, w0, tr0) /\
    load_path (fst actor) = Some path /\
    @loadPCDFile FileIO.collaborators path w0 = (ret, cloud, w1) /\
    ret <> -1 /\
    @getCorrespondingPointCloud SpatialIndex.linear_scan
      (@cleaner_Update FileIO.collaborators cleaner displayed)
      (@fromPCLPointCloud2 FileIO.collaborators cloud) [] = Ok indices /\
    FileIO.copy reference [0; 3] =
      @copyPointCloud FileIO.collaborators cloud indices /\
    "out2.pcd"%string =
      output_name "out"
        (1 + Z.of_nat
               (List.length (@load_paths FileIO.collaborators front))) /\
    ascending indices /\
    NoDup indices.
Proof.
  assert (Hrun : run displayed "out" registry full_disk =
                 (Ok true,
                  snd (fst (run displayed "out" registry full_disk)),
                  snd (run displayed "out" registry full_disk)))
    by reflexivity.
  apply (proj1 (@written_clouds_are_matched_copies SpatialIndex.linear_scan
                  FileIO.collaborators displayed "out" registry full_disk
                  (Ok true)
                  (snd (fst (run displayed "out" registry full_disk)))
                  (snd (run displayed "out" registry full_disk)) Hrun)
           "out2.pcd" (FileIO.copy reference [0; 3]) 0).
  apply (nth_error_In _ 10). reflexivity.
Defined.

Lemma one_error_message_per_failure_witness :
  fst (fst (run displayed "out" three_sources disk_without_b)) = Ok false /\
  error_prints (snd (run displayed "out" three_sources disk_without_b))
  = 1%nat.
Proof.
  split; [reflexivity|].
  apply (@one_error_message_per_failure SpatialIndex.linear_scan
           FileIO.collaborators displayed "out" three_sources disk_without_b
           (Ok false)
           (snd (fst (run displayed "out" three_sources disk_without_b)))
           (snd (run displayed "out" three_sources disk_without_b))).
  reflexivity.
Defined.

Lemma export_of_appended_registry_witness :
  let front := [("a.pcd", tt); ("floor", tt)] in
  let back := [("b.pcd-1", tt); ("c.pcd", tt)] in
  let w1 := snd (fst (run displayed "out" front full_disk)) in
  let tr1 := snd (run displayed "out" front full_disk) in
  run displayed "out" front full_disk = (Ok true, w1, tr1) /\
  run displayed "out" (front ++ back) full_disk =
  let '(r, w2, tr2) :=
    @export_loop SpatialIndex.linear_scan FileIO.collaborators
      (GeometryDeduplicator.deduplicate cleaner displayed) "out" back
      (1 + Z.of_nat (List.length (@load_paths FileIO.collaborators front))) w1 in
  (r, w2, tr1 ++ tr2).
Proof.
  intros front back w1 tr1. split; [reflexivity|].
  apply (@export_of_appended_registry SpatialIndex.linear_scan
           FileIO.collaborators displayed "out" front back full_disk w1 tr1).
  reflexivity.
Defined.

Lemma load_path_is_a_fixed_point_witness :
  load_path "scan.pcd-2" = Some "scan.pcd"%string /\
  load_path "scan.pcd" = Some "scan.pcd"%string.
Proof.
  split; [reflexivity|].
  apply (load_path_is_a_fixed_point "scan.pcd-2" "scan.pcd"). reflexivity.
Defined.

Lemma output_names_are_distinct_witness :
  NoDup (map snd (save_attempts ""
                    (io_calls (snd (run displayed "out" registry full_disk))))).
Proof.
  apply (@output_names_are_distinct SpatialIndex.linear_scan
           FileIO.collaborators displayed "out" registry full_disk
           (fst (fst (run displayed "out" registry full_disk)))
           (snd (fst (run displayed "out" registry full_disk)))
           (snd (run displayed "out" registry full_disk))).
  change (run displayed "out" registry full_disk =
          (fst (fst (run displayed "out" registry full_disk)),
           snd (fst (run displayed "out" registry full_disk)),
           snd (run displayed "out" registry full_disk))).
  destruct (run displayed "out" registry full_disk) as [[r w'] tr].
  reflexivity.
Defined.

End MoreSampleRuns.

(** ** When the runs return *)

Section Returns.

Context {kd_impl : KdTreeFLANN}.

(** X13: the cloud built from the displayed geometry is well formed:
    it holds width times height points, and its width is a 32-bit
    value. *)
Theorem extracted_cloud_is_well_formed
    (src : vtkPolyData) (cloud : PointCloud) :
  extract_cloud src = Ok cloud ->
  Z.of_nat (List.length (points cloud)) = width cloud * height cloud /\
  0 <= width cloud < 2 ^ 32.
Proof.
  intros Hrun.
  assert (Hw : 0 <= GetNumberOfPoints src mod 2 ^ 32 < 2 ^ 32)
    by (apply Z.mod_pos_bound; lia).
  destruct (Z.lt_ge_cases (GetNumberOfPoints src) 0) as [Hneg|Hpos].
  - unfold extract_cloud in Hrun.
    replace (Z.to_nat (GetNumberOfPoints src)) with 0%nat in Hrun by lia.
    simpl in Hrun. injection Hrun as <-. simpl.
    rewrite resized_length. unfold static_cast_uint32. lia.
  - destruct (Z.lt_ge_cases (GetNumberOfPoints src) (2 ^ 32)) as [Hs|Hl].
    + rewrite extract_cloud_fits in Hrun by lia. injection Hrun as <-. simpl.
      rewrite displayed_points_length. lia.
    + rewrite extract_cloud_overruns in Hrun by lia. discriminate.
Qed.

(** With fewer than 2^32 displayed points, a kd-tree that keeps its
    contract and a non-empty reference cloud the matching returns. *)
Lemma getCorrespondingPointCloud_returns
    (contract : KdTreeContract kd_impl)
    (src : vtkPolyData) (tgt : PointCloud) (indices : Indices) :
  0 <= GetNumberOfPoints src < 2 ^ 32 ->
  points tgt <> [] ->
  exists out, getCorrespondingPointCloud src tgt indices = Ok out.
Proof.
  intros Hn Htgt.
  destruct (built_when_nonempty tgt Htgt) as (kdtree & Hk).
  destruct (answers_total kdtree (displayed_points src)) as (found & Hf).
  { intros p _.
    destruct (answer_in_reference tgt kdtree p Htgt Hk) as (n & Hp & _).
    exists n. exact Hp. }
  exists (Std.unique (Std.sort (indices ++ found))).
  unfold getCorrespondingPointCloud. rewrite (extract_cloud_fits src Hn).
  simpl. apply (resolve_run _ _ _ _ _ Hk Hf).
Qed.

Context {env : Collaborators}.

(** Why a pass stops without a boolean. *)
Lemma iteration_of_undefined (output : vtkPolyData) (out_file : string)
    (actor : string * CloudActor) (i : Z) (w : World)
    (f : failure) (w' : World) (calls : list event) :
  iteration_of output out_file actor i w = Stop (Fail f) w' calls ->
  exists path ret cloud w1,
    load_path (fst actor) = Some path /\
    loadPCDFile path w = (ret, cloud, w1) /\
    ret <> -1 /\
    (getCorrespondingPointCloud output (fromPCLPointCloud2 cloud) [] = Fail f
     \/ i = INT_MAX).
Proof.
  unfold iteration_of, load_path.
  destruct (Std.find (fst actor) marker) as [position|]; [|discriminate].
  destruct (loadPCDFile _ w) as [[ret cloud] w1] eqn:Hload.
  destruct (Z.eqb_spec ret (-1)) as [->|Hret]; [discriminate|].
  destruct (getCorrespondingPointCloud output (fromPCLPointCloud2 cloud) [])
    as [indices|f0] eqn:Hmatch.
  - destruct (Z.eqb_spec i INT_MAX) as [->|Hi].
    + intros _. eexists _, ret, cloud, w1.
      repeat (split; [first [reflexivity | eassumption]|]).
      right. reflexivity.
    + destruct (savePCDFile _ _ true w1) as [sret w2].
      destruct (sret =? -1); discriminate.
  - intros [= <- _ _]. eexists _, ret, cloud, w1.
    repeat (split; [first [reflexivity | eassumption]|]).
    left. exact Hmatch.
Qed.

Lemma export_loop_returns
    (contract : KdTreeContract kd_impl)
    (output : vtkPolyData) (out_file : string) :
  0 <= GetNumberOfPoints output < 2 ^ 32 ->
  forall actors i w,
    (forall front actor back w0 tr0 path ret cloud w1,
       actors = front ++ actor :: back ->
       export_loop output out_file front i w = (Ok true, w0, tr0) ->
       load_path (fst actor) = Some path ->
       loadPCDFile path w0 = (ret, cloud, w1) -> ret <> -1 ->
       points (fromPCLPointCloud2 cloud) <> []) ->
    i + Z.of_nat (List.length (load_paths actors)) <= INT_MAX ->
    exists b, fst (fst (export_loop output out_file actors i w)) = Ok b.
Proof.
  intros Hn.
  induction actors as [|actor rest IH]; intros i w Hloads Hi.
  - exists true. reflexivity.
  - rewrite export_loop_cons.
    pose proof (iteration_of_calls output out_file actor i w) as Hcalls.
    simpl load_paths in Hi.
    destruct (iteration_of output out_file actor i w)
      as [|r0 w0 calls|i' w0 calls] eqn:Hit.
    + rewrite Hcalls in Hi. apply IH; [|exact Hi].
      intros front a back w1 tr0 path ret cloud w2 Heq Hfront.
      apply (Hloads (actor :: front) a back w1 tr0 path ret cloud w2).
      * rewrite Heq. reflexivity.
      * rewrite export_loop_cons, Hit. exact Hfront.
    + destruct r0 as [b|f]; [exists b; reflexivity|]. exfalso.
      destruct (iteration_of_undefined _ _ _ _ _ _ _ _ Hit)
        as (path & ret & cloud & w1 & Hp & Hl & Hr & Hwhy).
      rewrite Hp in Hi. simpl in Hi.
      destruct Hwhy as [Hfail | ->]; [|lia].
      destruct (getCorrespondingPointCloud_returns contract output
                  (fromPCLPointCloud2 cloud) [] Hn) as (out & Hout).
      * apply (Hloads [] actor rest w [] path ret cloud w1);
          [reflexivity | reflexivity | assumption | assumption | assumption].
      * congruence.
    + destruct Hcalls as (path & ret & sret & Hp & _ & _ & -> & _).
      rewrite Hp in Hi. simpl List.length in Hi.
      destruct (IH (i + 1) w0) as (b & Hb).
      * intros front a back w1 tr0 path0 ret0 cloud w2 Heq Hfront.
        apply (Hloads (actor :: front) a back w1 (calls ++ tr0)
                 path0 ret0 cloud w2).
        -- rewrite Heq. reflexivity.
        -- rewrite export_loop_cons, Hit, Hfront. reflexivity.
      * lia.
      * destruct (export_loop output out_file rest (i + 1) w0)
          as [[r w3] tr3].
        exists b. exact Hb.
Qed.

(** X14: [savePointData] returns [true] or [false], with every vector
    access in range and the sequence number within [int], when the
    cleaned geometry has fewer than 2^32 points, the kd-tree keeps its
    contract, the registry has fewer than [INT_MAX] sources, and every
    cloud this run reads successfully (for an entry it reaches, in the
    world the entries before it left) has a point. *)
Theorem export_returns_a_boolean
    (contract : KdTreeContract kd_impl)
    (data : vtkPolyData) (out_file : string)
    (actors : list (string * CloudActor)) (w : World) :
  0 <= GetNumberOfPoints (cleaner_Update cleaner data) < 2 ^ 32 ->
  (forall front actor back w0 tr0 path ret cloud w1,
     actors = front ++ actor :: back ->
     savePointData data out_file front w = (Ok true, w0, tr0) ->
     load_path (fst actor) = Some path ->
     loadPCDFile path w0 = (ret, cloud, w1) -> ret <> -1 ->
     points (fromPCLPointCloud2 cloud) <> []) ->
  Z.of_nat (List.length (load_paths actors)) < INT_MAX ->
  exists b, fst (fst (savePointData data out_file actors w)) = Ok b.
Proof.
  intros Hn Hloads Hcount. rewrite savePointData_run.
  destruct (export_loop_returns contract _ out_file Hn actors 1 w)
    as (b & Hb).
  - intros front actor back w0 tr0 path ret cloud w1 Heq Hfront.
    apply (Hloads front actor back w0
             (pruning_report data (cleaner_Update cleaner data) ++ tr0)
             path ret cloud w1 Heq).
    rewrite savePointData_run, Hfront. reflexivity.
  - lia.
  - destruct (export_loop (cleaner_Update cleaner data) out_file actors 1 w)
      as [[r w1] tr1].
    exists b. exact Hb.
Qed.

End Returns.

Section ReturnsOnSamples.

Import Sample MoreSamples.

Lemma extracted_cloud_is_well_formed_witness :
  let cloud := {| width := 2; height := 1; is_dense := false;
                  points := displayed_points displayed |} in
  extract_cloud displayed = Ok cloud /\
  Z.of_nat (List.length (points cloud)) = width cloud * height cloud /\
  0 <= width cloud < 2 ^ 32.
Proof.
  intros cloud. split; [vm_compute; reflexivity|].
  apply (extracted_cloud_is_well_formed displayed cloud).
  vm_compute. reflexivity.
Defined.

Lemma export_returns_a_boolean_witness :
  exists b,
    fst (fst (run displayed "out" [("a.pcd-1", tt); ("floor", tt)] full_disk))
    = Ok b.
Proof.
  apply (@export_returns_a_boolean SpatialIndex.linear_scan
           FileIO.collaborators linear_scan_contract
           displayed "out" [("a.pcd-1", tt); ("floor", tt)] full_disk).
  - split; [discriminate | reflexivity].
  - assert (Hstart : @savePointData SpatialIndex.linear_scan
                       FileIO.collaborators displayed "out" [] full_disk
                     = (Ok true, full_disk, []))
      by reflexivity.
    intros front actor back w0 tr0 path ret cloud w1 Heq Hfront Hpath Hload Hret.
    destruct front as [|first front].
    + injection Heq as <- _. rewrite Hstart in Hfront.
      injection Hfront as <- _. injection Hpath as <-.
      injection Hload as _ <- _. discriminate.
    + destruct front as [|second front].
      * injection Heq as _ <- _. discriminate Hpath.
      * exfalso. apply (f_equal (@List.length _)) in Heq.
        simpl in Heq. rewrite length_app in Heq. simpl in Heq. lia.
  - reflexivity.
Defined.

End ReturnsOnSamples.
